(** * Library sheets and block-content extraction of mcp-da-live-media

    A shallow embedding of the sheet document model
    (src/common/library-cfg-utils.js, src/common/sheet-utils.js), of the
    block library operations (src/operations/library.js), of the site
    configuration registrar (src/operations/config.js) and of the
    balanced-tag scanner of src/operations/blocks.js, followed by the
    properties established about them.

    Conventions.  A JavaScript string is a [string]: a sequence of code
    units below 256.  A row object is a finite map from column names to
    string values.  An object whose key order is observable (the sheets of
    a document, the extraction result) is an association list in insertion
    order.  A member that may be absent from a JSON object is an [option].
    A function that can throw returns a [completion]. *)

From Stdlib Require Import Ascii String List Arith Bool Lia.
From stdpp Require Import base option list gmap strings.

Local Open Scope string_scope.
Local Open Scope list_scope.

(** ** Normal and abrupt completion *)

Inductive completion (A : Type) : Type :=
| Ok (a : A)
| Throw (message : string).
Arguments Ok {A} a.
Arguments Throw {A} message.

(** ** JavaScript strings *)

(** [s.startsWith(p)] *)
Fixpoint startsWith (p s : string) : bool :=
  match p with
  | EmptyString => true
  | String c p' =>
      match s with
      | EmptyString => false
      | String d s' => if Ascii.eqb c d then startsWith p' s' else false
      end
  end.

(** [s.slice(n)] for [0 <= n] *)
Fixpoint slice (n : nat) (s : string) : string :=
  match n with
  | 0 => s
  | S n' => match s with EmptyString => EmptyString | String _ s' => slice n' s' end
  end.

(** [s.includes(p)] *)
Fixpoint includes (p s : string) : bool :=
  startsWith p s
  || match s with EmptyString => false | String _ s' => includes p s' end.

(** ** Objects with observable key order *)

Fixpoint obj_get {V : Type} (o : list (string * V)) (k : string) : option V :=
  match o with
  | [] => None
  | (k', v) :: o' => if String.eqb k' k then Some v else obj_get o' k
  end.

(** [o[k] = v]: an existing key keeps its place, a new key goes last. *)
Fixpoint obj_set {V : Type} (o : list (string * V)) (k : string) (v : V)
  : list (string * V) :=
  match o with
  | [] => [(k, v)]
  | (k', v') :: o' =>
      if String.eqb k' k then (k', v) :: o' else (k', v') :: obj_set o' k v
  end.

Definition obj_keys {V : Type} (o : list (string * V)) : list string :=
  map fst o.

(** Names every object inherits from [Object.prototype]; reading one of
    them from an object that has no such key of its own gives a truthy
    value. *)
Definition inheritedNames : list string :=
  [ "constructor"; "toString"; "toLocaleString"; "valueOf"; "hasOwnProperty";
    "isPrototypeOf"; "propertyIsEnumerable"; "__proto__"; "__defineGetter__";
    "__defineSetter__"; "__lookupGetter__"; "__lookupSetter__" ].

Definition isInherited (key : string) : bool :=
  existsb (String.eqb key) inheritedNames.

(** [o[k] = v] leaves no key of its own behind when [k] is [__proto__]:
    the assignment goes to the inherited setter. *)
Definition isProtoSetter (key : string) : bool := String.eqb key "__proto__".

(** ** src/common/global.js *)

Definition LIBRARY_TYPES : list (string * string) :=
  [("BLOCKS", "blocks"); ("TEMPLATES", "templates");
   ("ICONS", "icons"); ("PLACEHOLDERS", "placeholders")].

Record LibraryConfig := { multiSheet : bool; hasOptions : bool }.

Definition LIBRARY_CONFIG : list (string * LibraryConfig) :=
  [("blocks", {| multiSheet := true; hasOptions := true |})].

(** [Object.values(LIBRARY_TYPES).includes(type)] *)
Definition isLibraryType (type : string) : bool :=
  existsb (String.eqb type) (map snd LIBRARY_TYPES).

(** ** The sheet document model *)

Abbreviation Row := (gmap string string).

(** A sheet object.  Every member is optional, as in the JSON read from
    the store; [colWidths] is the [":colWidths"] member. *)
Record Sheet := mkSheet {
  total : option nat;
  limit : option nat;
  offset : option nat;
  data : option (list Row);
  colWidths : option (list nat)
}.

(** A multi-sheet document: its named sheets in key order, [":version"]
    and [":names"].  Its [":type"] is ["multi-sheet"]. *)
Record MultiSheet := mkMultiSheet {
  sheets : list (string * Sheet);
  version : option nat;
  names : option (list string)
}.

(** A document is in one of two shapes, told apart by [":type"]: a
    multi-sheet document, or an object read as a single sheet whose
    [":type"] member, when present, is [tag]. *)
Inductive Doc :=
| Flat (tag : option string) (s : Sheet)
| Multi (m : MultiSheet).

Definition docType (d : Doc) : option string :=
  match d with
  | Flat tag _ => tag
  | Multi _ => Some "multi-sheet"
  end.

(** ** src/common/library-cfg-utils.js *)

Definition CONTENT_DOMAIN : string := "https://content.da.live".

Definition cleanPath (path : string) : string :=
  if startsWith "/" path then slice 1 path else path.

Definition createSheetStructure (rows : list Row) : Sheet :=
  {| total := Some (length rows);
     limit := Some (length rows);
     offset := Some 0;
     data := Some rows;
     colWidths := None |}.

(** [itemName] is [None] for [null]; an empty name is falsy as well. *)
Definition buildLibraryPath (type baseFolder : string) (itemName : option string)
  : completion string :=
  if negb (isLibraryType type) then Throw ("Unknown library type: " +:+ type)
  else
    let base := "/" +:+ cleanPath baseFolder +:+ "/" +:+ type in
    match itemName with
    | Some (String c n) => Ok (base +:+ "/" +:+ String c n)
    | _ => Ok base
    end.

Definition buildContentUrl (org repo path : string) : string :=
  CONTENT_DOMAIN +:+ "/" +:+ org +:+ "/" +:+ repo +:+ "/" +:+ cleanPath path.

Definition getDataSheet (jsonData : option Doc) : option Sheet :=
  match jsonData with
  | None => None
  | Some (Multi m) => obj_get (sheets m) "data"
  | Some (Flat _ s) => Some s
  end.

Definition getOptionsSheet (jsonData : option Doc) : option Sheet :=
  match jsonData with
  | Some (Multi m) => obj_get (sheets m) "options"
  | _ => None
  end.

Definition createSheet (entries : list Row) : Doc :=
  Flat (Some "sheet") (createSheetStructure entries).

(** The members [":version"], [":names"] and [":type"] of a multi-sheet
    document. *)
Definition metaNames : list string := [":version"; ":names"; ":type"].

Definition isMeta (name : string) : bool := existsb (String.eqb name) metaNames.

(** The names under which [createMultiSheetJSON] leaves a sheet in
    [out]: a sheet assigned to [__proto__] never becomes a member, one
    assigned to the name of a meta member is overwritten by that member
    at the end. *)
Definition sheetName (name : string) : bool :=
  negb (isProtoSetter name) && negb (isMeta name).

(** Each sheet of the argument contributes only its [data] member;
    [":names"] lists every key of the argument. *)
Definition createMultiSheetJSON (sheets : list (string * Sheet)) : Doc :=
  Multi {|
    sheets :=
      List.filter (fun '(name, _) => sheetName name)
        (map (fun '(name, sheet) =>
                (name, createSheetStructure (default [] (data sheet)))) sheets);
    version := Some 3;
    names := Some (obj_keys sheets) |}.

(** The sheet members of a value that is not a sheet object (a string,
    a number, an array, a function): it has none of them. *)
Definition notASheet : Sheet :=
  {| total := None; limit := None; offset := None; data := None; colWidths := None |}.

(** [config[name]] when it is truthy, read as a sheet: a sheet of the
    document; else a meta member ([":type"] is a non-empty string,
    [":names"] an array, [":version"] a number other than 0); else a
    member inherited from [Object.prototype]. *)
Definition truthyMember (config : MultiSheet) (name : string) : option Sheet :=
  match obj_get (sheets config) name with
  | Some sheet => Some sheet
  | None =>
      if String.eqb name ":type" then Some notASheet
      else if String.eqb name ":names" then
        match names config with Some _ => Some notASheet | None => None end
      else if String.eqb name ":version" then
        match version config with
        | Some (S _) => Some notASheet
        | _ => None
        end
      else if isInherited name then Some notASheet
      else None
  end.

Definition parseMultiSheetJSON (config : MultiSheet) : list (string * Sheet) :=
  foldl (fun acc name =>
           match truthyMember config name with
           | Some sheet => if isProtoSetter name then acc else obj_set acc name sheet
           | None => acc
           end)
        [] (default [] (names config)).

Definition optionRow (key blocks values : string) : Row :=
  {[ "key" := key; "blocks" := blocks; "values" := values ]}.

Definition createDefaultBlockOptions : Sheet :=
  {| total := None; limit := None; offset := None; colWidths := None;
     data := Some
       [ optionRow "style" "section-metadata"
           "xxs-spacing | xs-spacing | s-spacing | m-spacing | l-spacing | xl-spacing | xxl-spacing | dark | light | quiet";
         optionRow "gap" "ALL" "100 | 200 | 300 | 400 | 500 | 600 | 700 | 800";
         optionRow "background" "section-metadata"
           "dark-grey=#676767 | light-grey=#EFEFEF | adobe-red=#FF0000 | blue=#0077B6 | green=#00A36C";
         optionRow "spacing" "section-metadata" "400 | 500 | 600 | 700 | 800";
         optionRow "template" "metadata" "blog-post | product-page | feature-page" ] |}.

Definition createLibraryJSON (type : string) (entries : list Row)
    (optionsSheet : option Sheet) : completion Doc :=
  if negb (isLibraryType type) then Throw ("Unknown library type: " +:+ type)
  else
    let config :=
      default {| multiSheet := false; hasOptions := false |}
              (obj_get LIBRARY_CONFIG type) in
    if multiSheet config then
      let sheets :=
        [("data", {| total := None; limit := None; offset := None;
                     data := Some entries; colWidths := None |})] in
      let sheets :=
        match optionsSheet with
        | Some o => obj_set sheets "options" o
        | None =>
            if hasOptions config
            then obj_set sheets "options" createDefaultBlockOptions
            else sheets
        end in
      Ok (createMultiSheetJSON sheets)
    else Ok (createSheet entries).

(** [data.findIndex(f)], [None] standing for [-1]. *)
Fixpoint findIndex {A : Type} (f : A -> bool) (l : list A) : option nat :=
  match l with
  | [] => None
  | x :: l' => if f x then Some 0 else S <$> findIndex f l'
  end.

(** [item[keyField] === entry[keyField]] on string-valued (or missing)
    members. *)
Definition sameKey (keyField : string) (entry item : Row) : bool :=
  bool_decide (item !! keyField = entry !! keyField).

Definition addEntry (dataSheet : option Sheet) (entry : Row) (keyField : string)
  : Sheet :=
  let rows := default [] (dataSheet ≫= data) in
  match findIndex (sameKey keyField entry) rows with
  | Some existingIndex => createSheetStructure (<[existingIndex := entry]> rows)
  | None => createSheetStructure (rows ++ [entry])
  end.

Definition removeEntry (dataSheet : option Sheet) (key keyField : string) : Sheet :=
  createSheetStructure
    (List.filter (fun item => negb (bool_decide (item !! keyField = Some key)))
                 (default [] (dataSheet ≫= data))).

Definition entryExists (dataSheet : option Sheet) (key : option string)
    (keyField : string) : bool :=
  existsb (fun item => bool_decide (item !! keyField = key))
          (default [] (dataSheet ≫= data)).

(** ** The remote store and its transport

    The administration service is a map from URLs to documents.  Every
    request consumes the head of [faults]: [Some message] makes that
    request fail with [message] before it reaches the store, [None] (or an
    exhausted list) lets it through.  A document that went through
    [JSON.stringify] and back is the same value. *)

Record World := mkWorld {
  store : gmap string Doc;
  faults : list (option string)
}.

Definition M (A : Type) : Type := World -> completion A * World.

Definition ret {A : Type} (a : A) : M A := fun w => (Ok a, w).

Definition throw {A : Type} (message : string) : M A := fun w => (Throw message, w).

Definition bind {A B : Type} (m : M A) (k : A -> M B) : M B :=
  fun w =>
    match m w with
    | (Ok a, w') => k a w'
    | (Throw message, w') => (Throw message, w')
    end.

(** [try { m } catch (error) { handler(error.message) }] *)
Definition try_catch {A : Type} (m : M A) (handler : string -> M A) : M A :=
  fun w =>
    match m w with
    | (Ok a, w') => (Ok a, w')
    | (Throw message, w') => handler message w'
    end.

Definition lift {A : Type} (r : completion A) : M A :=
  match r with
  | Ok a => ret a
  | Throw message => throw message
  end.

Notation "x <- m ;; k" := (bind m (fun x => k))
  (at level 100, m at next level, right associativity).

(** One request leaves the client. *)
Definition request : M unit :=
  fun w =>
    match faults w with
    | Some message :: rest => (Throw message, {| store := store w; faults := rest |})
    | None :: rest => (Ok tt, {| store := store w; faults := rest |})
    | [] => (Ok tt, w)
    end.

(** ** src/common/utils.js *)

Definition ADMIN_API_URL : string := "https://admin.da.live".

Definition formatURL (api org repo path ext : string) : string :=
  ADMIN_API_URL +:+ "/" +:+ api +:+ "/" +:+ org +:+ "/" +:+ repo +:+ "/"
    +:+ (if startsWith "/" path then slice 1 path else path)
    +:+ (match ext with EmptyString => "" | _ => "." +:+ ext end).

(** [daAdminRequest(url)], a GET: the stored document, or the error of a
    response that is not ok (its text is shortened to the status line). *)
Definition daAdminRequest (url : string) : M Doc :=
  _ <- request ;;
  fun w =>
    match store w !! url with
    | Some d => (Ok d, w)
    | None => (Throw "API 404 Not Found", w)
    end.

(** [daAdminRequest(url, { method, body })] with a document as body, as
    issued by [uploadJSON] (POST) and by [uploadConfig] (PUT). *)
Definition daAdminSend (url : string) (body : Doc) : M unit :=
  _ <- request ;;
  fun w => (Ok tt, {| store := <[url := body]> (store w); faults := faults w |}).

Definition uploadJSON (url : string) (jsonData : Doc) : M unit :=
  daAdminSend url jsonData.

(** ** src/common/sheet-utils.js *)

Definition uploadSheetJSON (org repo path : string) (sheetJSON : Doc) : M unit :=
  uploadJSON (formatURL "source" org repo path "json") sheetJSON.

Definition getSheetJSON (org repo path : string) : M (option Doc) :=
  try_catch
    (d <- daAdminRequest (formatURL "source" org repo path "json") ;; ret (Some d))
    (fun message => if includes "404" message then ret None else throw message).

Definition listSheetItems (org repo path : string) : M (list Row) :=
  sheetJSON <- getSheetJSON org repo path ;;
  match sheetJSON with
  | None => ret []
  | Some _ => ret (default [] (getDataSheet sheetJSON ≫= data))
  end.

Record AddResult := mkAddResult {
  ar_added : bool;
  ar_existed : bool;
  ar_path : string;
  ar_entry : Row
}.

Definition addSheetItem (org repo : string) (entry : Row) (keyField path : string)
    (createSheetFn : list Row -> completion Doc) : M AddResult :=
  sheetJSON <- getSheetJSON org repo path ;;
  let dataSheet := match sheetJSON with Some _ => getDataSheet sheetJSON | None => None end in
  let existed :=
    match dataSheet with
    | Some _ => entryExists dataSheet (entry !! keyField) keyField
    | None => false
    end in
  let updatedDataSheet := addEntry dataSheet entry keyField in
  newSheetJSON <- lift (createSheetFn (default [] (data updatedDataSheet))) ;;
  _ <- uploadSheetJSON org repo path newSheetJSON ;;
  ret {| ar_added := true; ar_existed := existed; ar_path := path; ar_entry := entry |}.

Record RemoveResult := mkRemoveResult {
  rr_removed : bool;
  rr_path : option string;
  rr_error : option string
}.

Definition removeSheetItem (org repo key keyField path : string)
    (createSheetFn : list Row -> completion Doc) : M RemoveResult :=
  sheetJSON <- getSheetJSON org repo path ;;
  match sheetJSON with
  | None => ret {| rr_removed := false; rr_path := None; rr_error := Some "Sheet not found" |}
  | Some _ =>
      match getDataSheet sheetJSON with
      | None =>
          ret {| rr_removed := false; rr_path := None;
                 rr_error := Some "Data sheet not found" |}
      | Some dataSheet =>
          let updatedDataSheet := removeEntry (Some dataSheet) key keyField in
          newSheetJSON <- lift (createSheetFn (default [] (data updatedDataSheet))) ;;
          _ <- uploadSheetJSON org repo path newSheetJSON ;;
          ret {| rr_removed := true; rr_path := Some path; rr_error := None |}
      end
  end.

(** An input item of a batch is an object with string members. *)
Abbreviation Item := (gmap string string).

(** [{ ...item, success, existed }] or [{ ...item, success, error }] *)
Record ItemOutcome := mkItemOutcome {
  o_item : Item;
  o_success : bool;
  o_existed : option bool;
  o_error : option string
}.

Record Summary := mkSummary {
  s_total : nat;
  s_added : nat;
  s_updated : nat;
  s_failed : nat
}.

Record SetupResult := mkSetupResult {
  summary : Summary;
  items : list ItemOutcome;
  errors : list string;
  success : option bool
}.

(** [a || b] on string members: a missing or empty string is falsy. *)
Definition orElse (a b : option string) : option string :=
  match a with
  | Some (String c s) => a
  | _ => b
  end.

(** [`${item[keyField] || item.key || item.name}`] *)
Definition itemLabel (item : Item) (keyField : string) : string :=
  default "undefined"
    (orElse (item !! keyField) (orElse (item !! "key") (item !! "name"))).

Section SetupSheetItems.

Variables (org repo keyField path : string).
Variable createSheetFn : list Row -> completion Doc.
Variable createEntry : Item -> completion Row.

(** The body of the [for] loop, [try] and [catch] included. *)
Definition setupStep (result : SetupResult) (item : Item) : M SetupResult :=
  try_catch
    (entry <- lift (createEntry item) ;;
     addResult <- addSheetItem org repo entry keyField path createSheetFn ;;
     let s := summary result in
     ret {| summary :=
              if ar_existed addResult
              then {| s_total := s_total s; s_added := s_added s;
                      s_updated := S (s_updated s); s_failed := s_failed s |}
              else {| s_total := s_total s; s_added := S (s_added s);
                      s_updated := s_updated s; s_failed := s_failed s |};
            items := items result ++
              [ {| o_item := item; o_success := true;
                   o_existed := Some (ar_existed addResult); o_error := None |} ];
            errors := errors result;
            success := success result |})
    (fun message =>
       let s := summary result in
       ret {| summary :=
                {| s_total := s_total s; s_added := s_added s;
                   s_updated := s_updated s; s_failed := S (s_failed s) |};
              items := items result ++
                [ {| o_item := item; o_success := false;
                     o_existed := None; o_error := Some message |} ];
              errors := errors result ++
                [ itemLabel item keyField +:+ ": " +:+ message ];
              success := success result |}).

Fixpoint setupLoop (result : SetupResult) (rest : list Item) : M SetupResult :=
  match rest with
  | [] => ret result
  | item :: rest' =>
      result' <- setupStep result item ;;
      setupLoop result' rest'
  end.

Definition setupSheetItems (inputs : list Item) : M SetupResult :=
  let result :=
    {| summary := {| s_total := length inputs; s_added := 0;
                     s_updated := 0; s_failed := 0 |};
       items := []; errors := []; success := None |} in
  result <- setupLoop result inputs ;;
  ret {| summary := summary result; items := items result;
         errors := errors result;
         success := Some (Nat.eqb (s_failed (summary result)) 0) |}.

(** *** What processing an item means

    The outcome of one item and what it does to the store, said without
    the loop and its counters. *)

(** The data sheet an upsert starts from: the one of the stored
    document when the read goes through; none when the read fails (the
    upsert then goes on only if the message holds the text 404). *)
Definition sheetRead (w : World) : option Sheet :=
  match faults w with
  | Some _ :: _ => None
  | _ => getDataSheet (store w !! formatURL "source" org repo path "json")
  end.

Definition succeeded (item : Item) (existed : bool) : ItemOutcome :=
  {| o_item := item; o_success := true; o_existed := Some existed; o_error := None |}.

Definition failed (item : Item) (message : string) : ItemOutcome :=
  {| o_item := item; o_success := false; o_existed := None; o_error := Some message |}.

(** [Attempted w item o w']: from the world [w], the item was turned into
    an entry and handed to [addSheetItem], with outcome [o], leaving the
    world [w'].  A success has stored the encoded upserted rows under
    the URL of the sheet; a failure, whatever its cause, has left the
    store as it was. *)
Inductive Attempted (w : World) (item : Item) : ItemOutcome -> World -> Prop :=
| Attempted_stored (entry : Row) (r : AddResult) (w' : World) (doc : Doc) :
    createEntry item = Ok entry ->
    addSheetItem org repo entry keyField path createSheetFn w = (Ok r, w') ->
    createSheetFn (default [] (data (addEntry (sheetRead w) entry keyField))) = Ok doc ->
    store w' = <[formatURL "source" org repo path "json" := doc]> (store w) ->
    ar_existed r = entryExists (sheetRead w) (entry !! keyField) keyField ->
    Attempted w item (succeeded item (ar_existed r)) w'
| Attempted_no_entry (message : string) :
    createEntry item = Throw message ->
    Attempted w item (failed item message) w
| Attempted_failed (entry : Row) (message : string) (w' : World) :
    createEntry item = Ok entry ->
    addSheetItem org repo entry keyField path createSheetFn w = (Throw message, w') ->
    store w' = store w ->
    Attempted w item (failed item message) w'.

(** [Processed w inputs outcomes w']: every item of [inputs] was
    attempted, in order, each from the world its predecessor left,
    whether that one succeeded or failed. *)
Inductive Processed : World -> list Item -> list ItemOutcome -> World -> Prop :=
| Processed_nil (w : World) : Processed w [] [] w
| Processed_cons (w w1 w2 : World) (item : Item) (o : ItemOutcome)
      (rest : list Item) (outcomes : list ItemOutcome) :
    Attempted w item o w1 ->
    Processed w1 rest outcomes w2 ->
    Processed w (item :: rest) (o :: outcomes) w2.

(** The line of [errors] a failed outcome stands for. *)
Definition errorLine (o : ItemOutcome) : option string :=
  if o_success o then None
  else Some (itemLabel (o_item o) keyField +:+ ": " +:+ default "" (o_error o)).

End SetupSheetItems.

(** ** src/operations/library.js *)

Definition getBlocksPath (baseFolder : string) : completion string :=
  buildLibraryPath "blocks" baseFolder None.

Record AddBlockResult := mkAddBlockResult {
  ab_added : bool;
  ab_existed : bool;
  ab_optionsPreserved : bool;
  ab_path : string;
  ab_entry : Row
}.

Record RemoveBlockResult := mkRemoveBlockResult {
  rb_removed : bool;
  rb_optionsPreserved : option bool;
  rb_path : option string;
  rb_error : option string
}.


Section Library.

(** [String.prototype.toUpperCase] of the runtime. *)
Variable toUpperCase : string -> string.

(** [s.charAt(0)] *)
Definition charAt0 (s : string) : string :=
  match s with
  | EmptyString => ""
  | String c _ => String c ""
  end.

(** [displayName] is [None] when the caller gave none; an empty display
    name is falsy too. *)
Definition createBlockEntry (blockName : string) (displayName : option string)
    (baseFolder org repo : string) : Row :=
  let blockPath :=
    buildContentUrl org repo (baseFolder +:+ "/blocks/" +:+ blockName) in
  {[ "name" :=
       match displayName with
       | Some (String c n) => String c n
       | _ => toUpperCase (charAt0 blockName) +:+ slice 1 blockName
       end;
     "path" := blockPath ]}.

Definition addBlock (org repo blockName : string) (displayName : option string)
    (baseFolder : string) : M AddBlockResult :=
  path <- lift (getBlocksPath baseFolder) ;;
  blocksJSON <- getSheetJSON org repo path ;;
  let dataSheet := match blocksJSON with Some _ => getDataSheet blocksJSON | None => None end in
  let optionsSheet := match blocksJSON with Some _ => getOptionsSheet blocksJSON | None => None end in
  let entry := createBlockEntry blockName displayName baseFolder org repo in
  let existed :=
    match dataSheet with
    | Some _ => entryExists dataSheet (entry !! "name") "name"
    | None => false
    end in
  let updatedDataSheet := addEntry dataSheet entry "name" in
  newBlocksJSON <-
    lift (createLibraryJSON "blocks" (default [] (data updatedDataSheet)) optionsSheet) ;;
  _ <- uploadSheetJSON org repo path newBlocksJSON ;;
  ret {| ab_added := true; ab_existed := existed;
         ab_optionsPreserved := bool_decide (is_Some optionsSheet);
         ab_path := path; ab_entry := entry |}.

Definition removeBlock (org repo blockName baseFolder : string)
  : M RemoveBlockResult :=
  path <- lift (getBlocksPath baseFolder) ;;
  blocksJSON <- getSheetJSON org repo path ;;
  match blocksJSON with
  | None =>
      ret {| rb_removed := false; rb_optionsPreserved := None; rb_path := None;
             rb_error := Some "blocks.json not found" |}
  | Some _ =>
      let dataSheet := getDataSheet blocksJSON in
      let optionsSheet := getOptionsSheet blocksJSON in
      match dataSheet with
      | None =>
          ret {| rb_removed := false; rb_optionsPreserved := None; rb_path := None;
                 rb_error := Some "Data sheet not found in blocks.json" |}
      | Some _ =>
          let updatedDataSheet := removeEntry dataSheet blockName "name" in
          newBlocksJSON <-
            lift (createLibraryJSON "blocks" (default [] (data updatedDataSheet))
                                    optionsSheet) ;;
          _ <- uploadSheetJSON org repo path newBlocksJSON ;;
          ret {| rb_removed := true;
                 rb_optionsPreserved := Some (bool_decide (is_Some optionsSheet));
                 rb_path := Some path; rb_error := None |}
      end
  end.


End Library.

(** ** src/operations/config.js *)

(** [s.replace(/\/$/, '')] *)
Fixpoint dropFinalSlash (s : string) : string :=
  match s with
  | EmptyString => EmptyString
  | String c s' =>
      match s' with
      | EmptyString => if Ascii.eqb c "/" then EmptyString else s
      | _ => String c (dropFinalSlash s')
      end
  end.

Definition buildConfigUrl (org repo : string) : string :=
  dropFinalSlash (formatURL "config" org repo "" "").

Definition uploadConfig (org repo : string) (configJSON : Doc) : M unit :=
  daAdminSend (buildConfigUrl org repo) configJSON.

Definition getSiteConfig (org repo : string) : M Doc :=
  try_catch (daAdminRequest (buildConfigUrl org repo))
    (fun message => throw ("Failed to get site config: " +:+ message)).


(** [key in row]: a key of the row itself or a name it inherits. *)
Definition hasProperty (key : string) (row : Row) : bool :=
  bool_decide (is_Some (row !! key)) || isInherited key.

Definition ensureLibraryColumns (newEntry : Row) (existingEntries : list Row) : Row :=
  match existingEntries with
  | [] => newEntry
  | firstEntry :: _ =>
      foldl (fun enrichedEntry key =>
               if hasProperty key enrichedEntry then enrichedEntry
               else <[key := ""]> enrichedEntry)
            newEntry (map fst (map_to_list firstEntry))
  end.

Definition createLibraryEntry (libraryType configPath : string)
    (existingEntries : list Row) : Row :=
  let baseEntry : Row := {[ "title" := libraryType; "path" := configPath ]} in
  ensureLibraryColumns baseEntry existingEntries.

(** What [ensureLibrarySheet] and [convertToMultiSheet] return.
    [sheetExisted] is [false] where the source leaves it undefined.

    [librarySheet] is aliased by [newConfig].  When [sheetExisted] holds
    it is the very object found under [library] in [newConfig].  In every
    other case [createMultiSheetJSON] has built a new object for
    [newConfig.library] around the same row array: the array is shared, the
    [total] and [limit] members are not. *)
Record LibrarySheetState := mkLibrarySheetState {
  newConfig : Doc;
  librarySheet : Sheet;
  preservedRows : nat;
  sheetExisted : bool
}.

Definition emptyLibrarySheet : Sheet :=
  {| total := Some 0; limit := Some 0; offset := Some 0; data := Some [];
     colWidths := None |}.

Definition convertToMultiSheet (config : Sheet) : LibrarySheetState :=
  let existingDataSheet :=
    {| total := Some (default 0 (total config));
       limit := None;
       offset := None;
       data := Some (default [] (data config));
       colWidths := colWidths config |} in
  let librarySheet := emptyLibrarySheet in
  {| newConfig :=
       createMultiSheetJSON [("data", existingDataSheet); ("library", librarySheet)];
     librarySheet := librarySheet;
     preservedRows := length (default [] (data existingDataSheet));
     sheetExisted := false |}.

Definition ensureLibrarySheet (config : Doc) : LibrarySheetState :=
  match config with
  | Flat tag s =>
      if bool_decide (tag = Some "sheet") then convertToMultiSheet s
      else
        let librarySheet := emptyLibrarySheet in
        {| newConfig := createMultiSheetJSON [("library", librarySheet)];
           librarySheet := librarySheet;
           preservedRows := 0; sheetExisted := false |}
  | Multi m =>
      match obj_get (sheets m) "library" with
      | Some library =>
          {| newConfig := config; librarySheet := library;
             preservedRows := 0; sheetExisted := true |}
      | None =>
          let sheets := parseMultiSheetJSON m in
          let librarySheet := emptyLibrarySheet in
          let sheets := obj_set sheets "library" librarySheet in
          {| newConfig := createMultiSheetJSON sheets; librarySheet := librarySheet;
             preservedRows := 0; sheetExisted := false |}
      end
  end.

(** The state of [newConfig] once [registerLibraryType] has mutated
    [librarySheet]: [rows] is the row array after the mutation, seen
    through both aliases; the recomputed [total] and [limit] reach
    [newConfig] only when the sheet object itself is shared. *)
Definition mutatedConfig (st : LibrarySheetState) (rows : list Row) : Doc :=
  match newConfig st with
  | Multi m =>
      match obj_get (sheets m) "library" with
      | Some library =>
          let library' :=
            if sheetExisted st
            then {| total := Some (length rows); limit := Some (length rows);
                    offset := offset library; data := Some rows;
                    colWidths := colWidths library |}
            else {| total := total library; limit := limit library;
                    offset := offset library; data := Some rows;
                    colWidths := colWidths library |} in
          Multi {| sheets := obj_set (sheets m) "library" library';
                   version := version m; names := names m |}
      | None => newConfig st
      end
  | Flat _ _ => newConfig st
  end.

Record RegisterResult := mkRegisterResult {
  registered : bool;
  existed : bool;
  createdSheet : bool;
  convertedToMultiSheet : option bool;
  libraryEntryCount : option nat;
  error : option string
}.

Definition registerLibraryType (org repo libraryType configPath : string)
  : M RegisterResult :=
  try_catch
    (config <- getSiteConfig org repo ;;
     let st := ensureLibrarySheet config in
     match data (librarySheet st) with
     | None => throw "Cannot read properties of undefined (reading 'findIndex')"
     | Some rows =>
         let existingIndex :=
           findIndex (fun item => bool_decide (item !! "title" = Some libraryType)) rows in
         let existed := bool_decide (is_Some existingIndex) in
         let rows' :=
           match existingIndex with
           | Some i => alter (fun item => <["path" := configPath]> item) i rows
           | None => rows ++ [createLibraryEntry libraryType configPath rows]
           end in
         _ <- uploadConfig org repo (mutatedConfig st rows') ;;
         ret {| registered := true;
                existed := existed;
                createdSheet := negb (sheetExisted st);
                convertedToMultiSheet :=
                  Some (bool_decide (docType config = Some "sheet"));
                libraryEntryCount := Some (length rows');
                error := None |}
     end)
    (fun message =>
       ret {| registered := false; existed := false; createdSheet := false;
              convertedToMultiSheet := None; libraryEntryCount := None;
              error := Some message |}).

(** ** Regular expressions of src/operations/blocks.js

    The patterns of [parseBlockInstances] are sequences of pattern
    characters, greedy repetitions of a character set, word boundaries and
    one capturing group.  [run] is the backtracking matcher of the
    language semantics for such sequences. *)

Module Regex.

Inductive atom :=
| Chr (c : ascii)              (* a pattern character *)
| Rep (set : ascii -> bool)    (* [set]*, greedy *)
| WordB                        (* \b *)
| GroupOpen                    (* ( of group 1 *)
| GroupClose.                  (* ) of group 1 *)

Definition pattern := list atom.

Definition chars (s : string) : pattern :=
  map Chr (list_ascii_of_string s).

Definition code (c : ascii) : nat := nat_of_ascii c.

(** Canonicalize of the [i] flag without the [u] flag, on code units
    below 256: the upper-case letter of a letter that has one in that
    range. *)
Definition canonicalize (c : ascii) : ascii :=
  let n := code c in
  if (((97 <=? n) && (n <=? 122)) || ((224 <=? n) && (n <=? 254) && negb (n =? 247)))%nat
  then ascii_of_nat (n - 32)
  else c.

Definition sameChar (ignoreCase : bool) (a c : ascii) : bool :=
  if ignoreCase then Ascii.eqb (canonicalize a) (canonicalize c)
  else Ascii.eqb a c.

(** [\w]: [A-Za-z0-9_] *)
Definition isWordChar (c : ascii) : bool :=
  let n := code c in
  (((65 <=? n) && (n <=? 90)) || ((97 <=? n) && (n <=? 122))
   || ((48 <=? n) && (n <=? 57)) || (n =? 95))%nat.

Definition isWord (c : option ascii) : bool :=
  match c with
  | Some a => isWordChar a
  | None => false
  end.

Definition next (s : string) : option ascii :=
  match s with
  | EmptyString => None
  | String a _ => Some a
  end.

(** The result of a match: its end index and the span of group 1. *)
Definition captures : Type := nat * option (nat * nat).

(** [run ignoreCase p prev s pos gs g]: match [p] against [s], which
    starts at index [pos] of the input and is preceded by [prev]; [gs]
    is where group 1 was opened and [g] its span once closed. *)
Fixpoint run (ignoreCase : bool) (p : pattern) (prev : option ascii) (s : string)
    (pos gs : nat) (g : option (nat * nat)) {struct p} : option captures :=
  match p with
  | [] => Some (pos, g)
  | Chr c :: p' =>
      match s with
      | String a s' =>
          if sameChar ignoreCase a c
          then run ignoreCase p' (Some a) s' (S pos) gs g
          else None
      | EmptyString => None
      end
  | Rep set :: p' =>
      (fix rep (prev : option ascii) (s : string) (pos : nat) {struct s}
         : option captures :=
         match s with
         | String a s' =>
             if set a then
               match rep (Some a) s' (S pos) with
               | Some r => Some r
               | None => run ignoreCase p' prev s pos gs g
               end
             else run ignoreCase p' prev s pos gs g
         | EmptyString => run ignoreCase p' prev s pos gs g
         end) prev s pos
  | WordB :: p' =>
      if xorb (isWord prev) (isWord (next s))
      then run ignoreCase p' prev s pos gs g
      else None
  | GroupOpen :: p' => run ignoreCase p' prev s pos pos g
  | GroupClose :: p' => run ignoreCase p' prev s pos gs (Some (gs, pos))
  end.

(** A match object: [index], the end of [match[0]], the span of
    [match[1]]. *)
Record found := mkFound {
  index : nat;
  stop : nat;
  group1 : option (nat * nat)
}.

(** The first index from [pos] on at which the pattern matches. *)
Fixpoint search (ignoreCase : bool) (p : pattern) (prev : option ascii)
    (s : string) (pos : nat) : option found :=
  match run ignoreCase p prev s pos 0 None with
  | Some (e, g) => Some {| index := pos; stop := e; group1 := g |}
  | None =>
      match s with
      | String a s' => search ignoreCase p (Some a) s' (S pos)
      | EmptyString => None
      end
  end.

(** The input from index [n] on, with the code unit before it; [None]
    when [n] is beyond the end. *)
Fixpoint seek (n : nat) (prev : option ascii) (s : string)
  : option (option ascii * string) :=
  match n with
  | 0 => Some (prev, s)
  | S n' =>
      match s with
      | String a s' => seek n' (Some a) s'
      | EmptyString => None
      end
  end.

(** [regex.lastIndex = lastIndex; regex.exec(str)] for a pattern with
    the [g] flag; on success the new [lastIndex] is [stop]. *)
Definition exec (ignoreCase : bool) (p : pattern) (str : string) (lastIndex : nat)
  : option found :=
  match seek lastIndex None str with
  | Some (prev, s) => search ignoreCase p prev s lastIndex
  | None => None
  end.

End Regex.

Import Regex.

(** ** More of JavaScript strings *)

(** The double quote. *)
Definition dquote : ascii := Ascii false true false false false true false false.
Definition gt : ascii := ">"%char.

(** [s.substring(start, stop)] *)
Definition substring (start stop : nat) (s : string) : string :=
  if (start <=? stop)%nat then String.substring start (stop - start) s
  else String.substring stop (start - stop) s.

(** White space and line terminators among the code units below 256. *)
Definition isSpace (c : ascii) : bool :=
  let n := code c in
  (((9 <=? n) && (n <=? 13)) || (n =? 32) || (n =? 160))%nat.

Fixpoint trimStart (s : string) : string :=
  match s with
  | EmptyString => EmptyString
  | String c s' => if isSpace c then trimStart s' else s
  end.

Fixpoint trimEnd (s : string) : string :=
  match s with
  | EmptyString => EmptyString
  | String c s' =>
      match trimEnd s' with
      | EmptyString => if isSpace c then EmptyString else String c EmptyString
      | t => String c t
      end
  end.

Definition trim (s : string) : string := trimEnd (trimStart s).

(** [s.split(/\s+/)]; [inRun] holds inside a run of white space. *)
Fixpoint splitSpaces (inRun : bool) (s : string) : list string :=
  match s with
  | EmptyString => [EmptyString]
  | String c s' =>
      if isSpace c then
        if inRun then splitSpaces true s' else EmptyString :: splitSpaces true s'
      else
        match splitSpaces false s' with
        | token :: rest => String c token :: rest
        | [] => [String c EmptyString]
        end
  end.

(** ** src/operations/blocks.js: parseBlockInstances *)

Definition notGt (c : ascii) : bool := negb (Ascii.eqb c gt).
Definition notQuote (c : ascii) : bool := negb (Ascii.eqb c dquote).

(** The pattern [<div ( [^>]* class=Q [^Q]* \b NAME \b [^Q]* Q [^>]* ) >],
    written atom by atom, with the flags [g] and [i]; [Q] is the double
    quote.  The pattern source splices [blockName] in as it is, and the
    embedding reads it as pattern characters: this is the pattern the
    source builds for a name made of letters, digits, [_] and [-]
    ([plainName] below).  A name that holds syntax of the pattern
    language builds another pattern, or makes [new RegExp] throw; such
    names are outside this embedding, and every statement about the
    pattern is made for plain names. *)
Definition openTagRegex (blockName : string) : pattern :=
  chars "<div" ++ [GroupOpen; Rep notGt] ++ chars "class=" ++
  [Chr dquote; Rep notQuote; WordB] ++ chars blockName ++
  [WordB; Rep notQuote; Chr dquote; Rep notGt; GroupClose] ++ chars ">".

(** The pattern [class=Q ( [^Q]* ) Q] of the variant detection, written
    atom by atom, [Q] being the double quote. *)
Definition classRegex : pattern :=
  chars "class=" ++ [Chr dquote; GroupOpen; Rep notQuote; GroupClose; Chr dquote].

(** The pattern [<div [^>]* >] with the flag [g]. *)
Definition divOpenRegex : pattern := chars "<div" ++ [Rep notGt] ++ chars ">".

(** The pattern [</div>] with the flag [g]. *)
Definition divCloseRegex : pattern := chars "</div>".

(** Whether [blockInstances[variant]] is truthy. *)
Definition captured (blockInstances : list (string * string)) (variant : string) : bool :=
  match obj_get blockInstances variant with
  | Some content => negb (String.eqb content "")
  | None => existsb (String.eqb variant) inheritedNames
  end.

(** The class list of the attributes of an opening tag. *)
Definition classesOf (attributes : string) : list string :=
  match exec false classRegex attributes 0 with
  | Some {| group1 := Some (from, to) |} =>
      splitSpaces false (substring from to attributes)
  | _ => []
  end.

Definition variantOf (blockName : string) (classes : list string) : string :=
  default ""
    (List.find (fun cls => negb (String.eqb cls blockName)
                           && negb (startsWith (blockName +:+ "-") cls))
               classes).

(** The depth-tracked scan for the closing tag: [Some (Some content)]
    when the counter reaches 0, [Some None] when the span is abandoned,
    [None] when [fuel] iterations were not enough. *)
Fixpoint closeScan (fuel : nat) (html : string) (startPos depth pos : nat)
  : option (option string) :=
  match fuel with
  | 0 => None
  | S fuel' =>
      if negb ((0 <? depth) && (pos <? String.length html))%nat then Some None
      else
        let nextOpen := exec false divOpenRegex html pos in
        let nextClose := exec false divCloseRegex html pos in
        match nextClose with
        | None => Some None
        | Some close =>
            match nextOpen with
            | Some open =>
                if (index open <? index close)%nat
                then closeScan fuel' html startPos (S depth) (stop open)
                else
                  if (depth - 1 =? 0)%nat
                  then Some (Some (trim (substring startPos (index close) html)))
                  else closeScan fuel' html startPos (depth - 1) (stop close)
            | None =>
                if (depth - 1 =? 0)%nat
                then Some (Some (trim (substring startPos (index close) html)))
                else closeScan fuel' html startPos (depth - 1) (stop close)
            end
        end
  end.

(** The loop over the matches of [openTagRegex]; [None] when [fuel]
    iterations were not enough. *)
Fixpoint openScan (fuel : nat) (html blockName : string) (lastIndex : nat)
    (blockInstances : list (string * string)) : option (list (string * string)) :=
  match fuel with
  | 0 => None
  | S fuel' =>
      match exec true (openTagRegex blockName) html lastIndex with
      | None => Some blockInstances
      | Some m =>
          let startPos := stop m in
          let attributes :=
            match group1 m with
            | Some (from, to) => substring from to html
            | None => ""
            end in
          let classes := classesOf attributes in
          let variant := variantOf blockName classes in
          if captured blockInstances variant
          then openScan fuel' html blockName (stop m) blockInstances
          else
            match closeScan (S (String.length html)) html startPos 1 startPos with
            | None => None
            | Some (Some content) =>
                openScan fuel' html blockName (stop m)
                         (obj_set blockInstances variant content)
            | Some None => openScan fuel' html blockName (stop m) blockInstances
            end
      end
  end.

(** Every iteration moves [lastIndex] forward, so one more iteration than
    the input has code units is enough. *)
Definition parseBlockInstances (html blockName : string)
  : option (list (string * string)) :=
  openScan (S (String.length html)) html blockName 0 [].

(** The inputs of the extraction scenarios. *)
Definition q : string := String dquote "".

Definition heroPage : string :=
  "<div class=" +:+ q +:+ "hero dark" +:+ q +:+ "><div class=" +:+ q +:+ "inner"
  +:+ q +:+ ">X</div></div><div class=" +:+ q +:+ "hero light" +:+ q +:+ ">Y</div>".

(** ** The storage path as the specification words it

    Every leading and every trailing slash of the base folder is
    stripped. *)

Fixpoint stripLeadingSlashes (s : string) : string :=
  match s with
  | EmptyString => EmptyString
  | String c s' => if Ascii.eqb c "/" then stripLeadingSlashes s' else s
  end.

Fixpoint stripTrailingSlashes (s : string) : string :=
  match s with
  | EmptyString => EmptyString
  | String c s' =>
      match stripTrailingSlashes s' with
      | EmptyString => if Ascii.eqb c "/" then EmptyString else String c EmptyString
      | t => String c t
      end
  end.

Definition spec_buildStoragePath (type baseFolder : string) (itemName : option string)
  : completion string :=
  if isLibraryType type then
    let base :=
      "/" +:+ stripTrailingSlashes (stripLeadingSlashes baseFolder) +:+ "/" +:+ type in
    match itemName with
    | Some (String c n) => Ok (base +:+ "/" +:+ String c n)
    | _ => Ok base
    end
  else Throw ("Unknown library type: " +:+ type).

(** ** Invariants of the data model and sample documents *)

(** The rows of a sheet have pairwise different values in the key
    field. *)
Definition uniqueKeys (keyField : string) (rows : list Row) : Prop :=
  NoDup (map (fun row : Row => row !! keyField) rows).

Definition sampleRow (key value : string) : Row :=
  {[ "key" := key; "value" := value ]}.

(** A flat site configuration that carries column widths. *)
Definition widthsConfig : Sheet :=
  {| total := Some 2; limit := Some 2; offset := Some 0;
     data := Some [sampleRow "site" "news"; sampleRow "lang" "en"];
     colWidths := Some [120; 300] |}.

Definition iconSheet : Sheet :=
  createSheetStructure
    [ {[ "key" := "search"; "icon" := "/icons/search.svg" ]};
      {[ "key" := "email"; "icon" := "/icons/email.svg" ]} ].

Definition emailIcon : Row := {[ "key" := "email"; "icon" := "/icons/mail-v2.svg" ]}.

(** ** The tally of a batch *)

Inductive Tally := Added | Updated | Failed.

#[global] Instance Tally_eq_dec : EqDecision Tally.
Proof. solve_decision. Defined.

(** Which counter of the summary an outcome was counted in. *)
Definition tallyOf (o : ItemOutcome) : option Tally :=
  match o_success o, o_existed o with
  | false, _ => Some Failed
  | true, Some true => Some Updated
  | true, Some false => Some Added
  | true, None => None
  end.

Definition countTally (t : Tally) (outcomes : list ItemOutcome) : nat :=
  length (List.filter (fun o => bool_decide (tallyOf o = Some t)) outcomes).

(** Three icons for a batch, and a transport whose third request fails. *)
Definition iconItem (key icon : string) : Item := {[ "key" := key; "icon" := icon ]}.

(** [{ k: item.k }]: a member that is undefined is left out of the
    stored row. *)
Definition member (k : string) (item : Item) : Row :=
  match item !! k with
  | Some v => {[ k := v ]}
  | None => ∅
  end.

(** [{ key: item.key, icon: item.icon }] *)
Definition createIconEntry (item : Item) : completion Row :=
  Ok (member "key" item ∪ member "icon" item).

Definition createIconsJSON (entries : list Row) : completion Doc :=
  createLibraryJSON "icons" entries None.

Definition threeIcons : list Item :=
  [ iconItem "search" "/icons/search.svg";
    iconItem "email" "/icons/email.svg";
    iconItem "phone" "/icons/phone.svg" ].

Definition flakyWorld : World :=
  {| store := ∅; faults := [None; None; Some "API 500 Internal Server Error"] |}.

(** ** Blocks documents in the store *)

(** Where [addBlock] and [removeBlock] keep the blocks document. *)
Definition blocksPath (baseFolder : string) : string :=
  "/" +:+ cleanPath baseFolder +:+ "/" +:+ "blocks".

Definition blocksUrl (org repo baseFolder : string) : string :=
  formatURL "source" org repo (blocksPath baseFolder) "json".

(** The rows of the default options table. *)
Definition defaultOptionRows : list Row :=
  default [] (data createDefaultBlockOptions).

(** A blocks document whose options sheet carries column widths. *)
Definition optionsWithWidths : Sheet :=
  {| total := Some 1; limit := Some 1; offset := Some 0;
     data := Some [optionRow "style" "section-metadata" "dark | light"];
     colWidths := Some [150; 400] |}.

Definition blocksWorld : World :=
  {| store :=
       {[ blocksUrl "org" "site" "library" :=
            Multi {| sheets :=
                       [ ("data",
                          createSheetStructure
                            [ {[ "name" := "Hero";
                                 "path" := "https://content.da.live/org/site/library/blocks/hero" ]} ]);
                         ("options", optionsWithWidths) ];
                     version := Some 3;
                     names := Some ["data"; "options"] |} ]};
     faults := [] |}.

(** ** Registrations in the site configuration *)

Definition hasTitle (libraryType : string) (row : Row) : bool :=
  bool_decide (row !! "title" = Some libraryType).

(** The titles of the rows of a library sheet are pairwise different. *)
Definition uniqueTitles (rows : list Row) : Prop :=
  NoDup (omap (fun row : Row => row !! "title") rows).

(** The rows of the library sheet of the configuration in the store. *)
Definition libraryRows (org repo : string) (w : World) : option (list Row) :=
  match store w !! buildConfigUrl org repo with
  | Some (Multi m) => obj_get (sheets m) "library" ≫= data
  | _ => None
  end.

(** A site configuration with two registrations. *)
Definition siteWorld : World :=
  {| store :=
       {[ buildConfigUrl "org" "site" :=
            Multi {| sheets :=
                       [ ("data", createSheetStructure [sampleRow "site" "news"]);
                         ("library",
                          createSheetStructure
                            [ {[ "title" := "Blocks"; "path" := "/library/blocks.json" ]};
                              {[ "title" := "Icons"; "path" := "/library/icons.json" ]} ]) ];
                     version := Some 3;
                     names := Some ["data"; "library"] |} ]};
     faults := [] |}.

(** ** What the opening-tag pattern looks for *)

(** [lit] stands at the start of [s], letter case ignored or not. *)
Fixpoint matchesAt (ignoreCase : bool) (lit s : string) : bool :=
  match lit with
  | EmptyString => true
  | String c lit' =>
      match s with
      | EmptyString => false
      | String a s' => sameChar ignoreCase a c && matchesAt ignoreCase lit' s'
      end
  end.

(** [lit] stands somewhere in [s]. *)
Fixpoint occursIn (ignoreCase : bool) (lit s : string) : bool :=
  matchesAt ignoreCase lit s
  || match s with
     | EmptyString => false
     | String _ s' => occursIn ignoreCase lit s'
     end.

(** The text [class=] followed by a double quote. *)
Definition classAttr : string := "class=" +:+ q.

(** The text [class=] followed by a double quote stands in [s] (letter
    case ignored) with no [>] in front of it. *)
Fixpoint classBeforeGt (s : string) : bool :=
  matchesAt true classAttr s
  || match s with
     | EmptyString => false
     | String a s' => notGt a && classBeforeGt s'
     end.

(** Somewhere in [s] stands the text [<div] followed, before any [>], by
    [class=] and a double quote. *)
Fixpoint divWithClassAttr (s : string) : bool :=
  (matchesAt true "<div" s && classBeforeGt (slice 4 s))
  || match s with
     | EmptyString => false
     | String _ s' => divWithClassAttr s'
     end.

(** Component names made of letters, digits, [_] and [-]: they hold no
    syntax character of the pattern language and no quote. *)
Definition isNameChar (c : ascii) : bool := isWordChar c || Ascii.eqb c "-".

Fixpoint plainName (name : string) : bool :=
  match name with
  | EmptyString => true
  | String c name' => isNameChar c && plainName name'
  end.

(** Class values: any text without a double quote and without [=]. *)
Fixpoint classValue (cls : string) : bool :=
  match cls with
  | EmptyString => true
  | String c cls' => notQuote c && negb (Ascii.eqb c "=") && classValue cls'
  end.

(** [name] stands at the start of [s], letter case ignored, and a word
    boundary follows it; [prev] is the code unit before [s]. *)
Fixpoint nameAt (name : string) (prev : option ascii) (s : string) : bool :=
  match name with
  | EmptyString => xorb (isWord prev) (isWord (next s))
  | String c name' =>
      match s with
      | EmptyString => false
      | String a s' => sameChar true a c && nameAt name' (Some a) s'
      end
  end.

(** [name] stands somewhere in [s] between two word boundaries. *)
Fixpoint wordOccursFrom (name : string) (prev : option ascii) (s : string) : bool :=
  (xorb (isWord prev) (isWord (next s)) && nameAt name prev s)
  || match s with
     | EmptyString => false
     | String a s' => wordOccursFrom name (Some a) s'
     end.

Definition wordOccurs (name cls : string) : bool := wordOccursFrom name None cls.

(** [name] is one of the white-space separated tokens of a class value. *)
Definition hasClassToken (name cls : string) : bool :=
  existsb (String.eqb name) (splitSpaces false cls).

Definition succeeds (r : option captures) : bool :=
  match r with
  | Some _ => true
  | None => false
  end.

(** An opening tag with the class value [cls], followed by [rest]. *)
Definition simpleTag (cls rest : string) : string :=
  "<div class=" +:+ q +:+ cls +:+ q +:+ ">" +:+ rest.

Definition bannerPage : string := simpleTag "hero-banner" "Z</div>".

Definition singleQuotePage : string := "<div class='hero'>Z</div>".

(** A single-quoted class attribute next to another attribute whose name
    ends in [class]. *)
Definition dataClassPage : string :=
  "<div class='hero' data-class=" +:+ q +:+ "hero x" +:+ q +:+ ">Z</div>".

(** An unquoted class attribute inside an element that has a class
    attribute in double quotes. *)
Definition unquotedPage : string :=
  "<p class=" +:+ q +:+ "hero" +:+ q +:+ "><div class=hero>Z</div></p>".

(** The atoms of the opening-tag pattern after the second word boundary. *)
Definition closingAtoms : pattern :=
  [Rep notQuote; Chr dquote; Rep notGt; GroupClose; Chr gt].

(** The atoms of the opening-tag pattern from the class value on. *)
Definition valueAtoms (blockName : string) : pattern :=
  Rep notQuote :: WordB :: chars blockName ++ WordB :: closingAtoms.

Definition heroicPage : string := simpleTag "heroic superhero hero_banner" "Z</div>".

(** ** Encoders and sample stores *)

(** An encoder handed to the sheet manager that never throws and whose
    documents decode to the rows they were built from. *)
Definition faithfulEncoder (createSheetFn : list Row -> completion Doc) : Prop :=
  forall rows,
    exists doc,
      createSheetFn rows = Ok doc /\ getDataSheet (Some doc) ≫= data = Some rows.

(** The rows of the data sheet of a document that may be absent. *)
Definition storedRows (doc : option Doc) : list Row :=
  default [] (getDataSheet doc ≫= data).

Definition emptyWorld : World := {| store := ∅; faults := [] |}.

(** The rows after upserting [entries] one after the other. *)
Definition upsertAll (keyField : string) (entries rows : list Row) : list Row :=
  foldl (fun rows entry =>
           default [] (data (addEntry (Some (createSheetStructure rows)) entry keyField)))
        rows entries.

(** ** src/operations/config.js: checkLibraryRegistration *)



(** The rows a registration starts from: those of the library sheet of
    the configuration, no row when it has no library sheet; [None] when
    its library sheet has no [data] member. *)
Definition existingLibraryRows (config : Doc) : option (list Row) :=
  match config with
  | Multi m =>
      match obj_get (sheets m) "library" with
      | Some library => data library
      | None => Some []
      end
  | Flat _ _ => Some []
  end.

(** A flat site configuration in the store. *)
Definition flatSiteWorld : World :=
  {| store := {[ buildConfigUrl "org" "site" := Flat (Some "sheet") widthsConfig ]};
     faults := [] |}.

(** A multi-sheet configuration without library sheet, one of whose
    sheets is not listed in [":names"], while [":names"] lists a name
    that is no sheet of the document. *)
Definition unlistedConfig : MultiSheet :=
  {| sheets :=
       [ ("data", createSheetStructure [sampleRow "site" "news"]);
         ("draft", createSheetStructure [sampleRow "lang" "en"]) ];
     version := Some 3;
     names := Some ["data"; "constructor"] |}.

(** ** src/common/validation-utils.js *)

Record Validation := mkValidation {
  valid : bool;
  v_error : option string
}.

Definition validationResult (valid : bool) (error : option string) : Validation :=
  {| valid := valid; v_error := error |}.

(** [validateString] on a value that is a string: [None] when it passes. *)
Definition validateString (value fieldName : string) : option Validation :=
  if String.eqb value "" || String.eqb (trim value) ""
  then Some (validationResult false (Some (fieldName +:+ " must be a non-empty string")))
  else None.

(** [regex.test(s)] for a pattern that is one character class. *)
Definition testClass (set : ascii -> bool) (s : string) : bool :=
  existsb set (list_ascii_of_string s).

(** The class of [INVALID_PATH_CHARS]: one of [<], [>], [:], the double
    quote, [|], [?] and the star. *)
Definition isInvalidPathChar (c : ascii) : bool :=
  existsb (Ascii.eqb c) ["<"; ">"; ":"; dquote; "|"; "?"; "*"]%char.

Definition isSlash (c : ascii) : bool :=
  Ascii.eqb c "/" || Ascii.eqb c "\".

Definition PATH_TRAVERSAL : string := "..".

Definition validateBlockName (blockName : string) : Validation :=
  match validateString blockName "Block name" with
  | Some stringCheck => stringCheck
  | None =>
      let trimmed := trim blockName in
      if testClass isSlash trimmed
      then validationResult false (Some "Block name cannot contain slashes")
      else if includes PATH_TRAVERSAL trimmed
      then validationResult false (Some "Block name cannot contain path traversal (..)")
      else if testClass isInvalidPathChar trimmed
      then validationResult false (Some "Block name contains invalid characters")
      else validationResult true None
  end.

(** [baseFolder.replace(re, '')] where [re] matches the leading run and
    the trailing run of slashes. *)
Definition validateBaseFolder (baseFolder : string) : Validation :=
  match validateString baseFolder "Base folder" with
  | Some stringCheck => stringCheck
  | None =>
      let clean := stripTrailingSlashes (stripLeadingSlashes baseFolder) in
      if (String.length clean =? 0)%nat
      then validationResult false (Some "Base folder cannot be empty")
      else if testClass isInvalidPathChar clean
      then validationResult false (Some "Base folder contains invalid characters")
      else if includes PATH_TRAVERSAL clean
      then validationResult false (Some "Base folder cannot contain path traversal (..)")
      else validationResult true None
  end.

(** * Properties *)

(** ** Strings *)

Lemma append_nil_r (s : string) : s +:+ "" = s.
Proof.
  induction s as [|c s IH]; [reflexivity |].
  change (String c (s +:+ "") = String c s). by rewrite IH.
Qed.

Lemma append_cons (c : ascii) (s t : string) : String c s +:+ t = String c (s +:+ t).
Proof. reflexivity. Qed.

Lemma append_assoc (s t u : string) : (s +:+ t) +:+ u = s +:+ t +:+ u.
Proof.
  induction s as [|c s IH]; [reflexivity |].
  rewrite !append_cons. by rewrite IH.
Qed.

(** ** The storage path builder *)

Lemma isLibraryType_true (type : string) :
  isLibraryType type = true <-> In type ["blocks"; "templates"; "icons"; "placeholders"].
Proof.
  unfold isLibraryType. rewrite existsb_exists. simpl. split.
  - intros (x & Hx & He). apply String.eqb_eq in He. subst. tauto.
  - intros H. exists type. rewrite String.eqb_refl. tauto.
Qed.

Lemma cleanPath_cases (path : string) :
  (exists rest, path = "/" +:+ rest /\ cleanPath path = rest)
  \/ (startsWith "/" path = false /\ cleanPath path = path).
Proof.
  unfold cleanPath. destruct path as [|c rest]; [right; split; reflexivity |].
  cbn [startsWith slice]. destruct (Ascii.eqb_spec "/"%char c) as [<- | Hne].
  - left. exists rest. split; reflexivity.
  - right. split; reflexivity.
Qed.

(** C9, as amended.  For a recognized library type, [buildLibraryPath]
    removes one leading slash from the base folder when there is one and
    nothing else (further leading slashes and trailing slashes stay), and
    returns [/folder/type], or [/folder/type/itemName] when a non-empty
    item name is given.  For any other type it fails with the
    unknown-library-type error. *)
Theorem buildLibraryPath_one_leading_slash
    (type baseFolder : string) (itemName : option string) :
  let suffix :=
    match itemName with Some (String c n) => "/" +:+ String c n | _ => "" end in
  (In type ["blocks"; "templates"; "icons"; "placeholders"] ->
     exists folder,
       (baseFolder = "/" +:+ folder
        \/ (baseFolder = folder /\ startsWith "/" baseFolder = false))
       /\ buildLibraryPath type baseFolder itemName
          = Ok ("/" +:+ folder +:+ "/" +:+ type +:+ suffix))
  /\ (~ In type ["blocks"; "templates"; "icons"; "placeholders"] ->
        buildLibraryPath type baseFolder itemName
        = Throw ("Unknown library type: " +:+ type)).
Proof.
  intros suffix. split.
  - intros Hin. apply isLibraryType_true in Hin.
    unfold buildLibraryPath. rewrite Hin. simpl negb. cbv iota.
    assert (Hres : forall folder, cleanPath baseFolder = folder ->
      match itemName with
      | Some (String c n) =>
          Ok (("/" +:+ cleanPath baseFolder +:+ "/" +:+ type) +:+ "/" +:+ String c n)
      | _ => Ok ("/" +:+ cleanPath baseFolder +:+ "/" +:+ type)
      end = Ok ("/" +:+ folder +:+ "/" +:+ type +:+ suffix)).
    { intros folder ->. subst suffix.
      destruct itemName as [[|c n]|]; rewrite ?append_nil_r, ?append_assoc; reflexivity. }
    destruct (cleanPath_cases baseFolder) as [(rest & Hb & Hc) | [Hs Hc]].
    + exists rest. split; [by left |]. by apply Hres.
    + exists baseFolder. split; [by right |]. by apply Hres.
  - intros Hnot. unfold buildLibraryPath.
    destruct (isLibraryType type) eqn:E; [| reflexivity].
    apply isLibraryType_true in E. contradiction.
Qed.

Lemma buildLibraryPath_one_leading_slash_witness :
  exists folder,
    ("/library/" = "/" +:+ folder
     \/ ("/library/" = folder /\ startsWith "/" "/library/" = false))
    /\ buildLibraryPath "blocks" "/library/" (Some "hero")
       = Ok ("/" +:+ folder +:+ "/" +:+ "blocks" +:+ "/" +:+ "hero").
Proof.
  apply (proj1 (buildLibraryPath_one_leading_slash "blocks" "/library/" (Some "hero"))).
  simpl. tauto.
Defined.

(** C9 as stated fails: a trailing slash of the base folder is kept, where
    the specification strips it. *)
Lemma buildLibraryPath_keeps_trailing_slash :
  buildLibraryPath "blocks" "library/" None = Ok "/library//blocks"
  /\ spec_buildStoragePath "blocks" "library/" None = Ok "/library/blocks"
  /\ buildLibraryPath "blocks" "library/" None
     <> spec_buildStoragePath "blocks" "library/" None.
Proof. repeat split. discriminate. Qed.

(** ** Migration of a flat site configuration *)

(** C2.  Migrating a flat site configuration keeps every row: the count
    reported as [preservedRows] is the number of rows of the original
    document, and the [data] sheet of the new multi-sheet document holds
    the original rows, same content, same order. *)
Theorem convertToMultiSheet_preserves_rows (config : Sheet) :
  let rows := default [] (data config) in
  let migrated := convertToMultiSheet config in
  ensureLibrarySheet (Flat (Some "sheet") config) = migrated
  /\ preservedRows migrated = length rows
  /\ exists m dataSheet,
       newConfig migrated = Multi m
       /\ getDataSheet (Some (newConfig migrated)) = Some dataSheet
       /\ data dataSheet = Some rows.
Proof.
  intros rows migrated. subst migrated rows. split.
  { unfold ensureLibrarySheet. by rewrite bool_decide_eq_true_2. }
  split; [reflexivity |]. eexists _, _. repeat split.
Qed.

Lemma convertToMultiSheet_data_sheet (config : Sheet) :
  getDataSheet (Some (newConfig (convertToMultiSheet config)))
  = Some (createSheetStructure (default [] (data config))).
Proof. reflexivity. Qed.

(** C7 fails on the code.  [convertToMultiSheet] copies [":colWidths"]
    into the sheet it hands to [createMultiSheetJSON], which keeps nothing
    but the rows: the [data] sheet of the migrated document has no column
    widths. *)
Theorem convertToMultiSheet_drops_colWidths :
  colWidths widthsConfig = Some [120; 300]
  /\ (getDataSheet (Some (newConfig (convertToMultiSheet widthsConfig))) ≫= colWidths)
     = None.
Proof. split; reflexivity. Qed.

(** ** Upsert by key *)

Section FindIndex.
Context {A : Type} (f : A -> bool).

Lemma findIndex_Some (l : list A) (i : nat) :
  findIndex f l = Some i ->
  exists l1 x l2,
    l = l1 ++ x :: l2 /\ length l1 = i /\ f x = true
    /\ Forall (fun y => f y = false) l1.
Proof.
  revert i. induction l as [|a l IH]; intros i H; [discriminate |].
  simpl in H. destruct (f a) eqn:Fa.
  - injection H as <-. exists [], a, l. repeat split; [assumption | constructor].
  - destruct (findIndex f l) as [j|] eqn:E; [| discriminate].
    injection H as <-. destruct (IH j eq_refl) as (l1 & x & l2 & -> & <- & Fx & Hall).
    exists (a :: l1), x, l2. repeat split; [assumption |]. by constructor.
Qed.

Lemma findIndex_None (l : list A) :
  findIndex f l = None -> Forall (fun y => f y = false) l.
Proof.
  induction l as [|a l IH]; intros H; [constructor |].
  simpl in H. destruct (f a) eqn:Fa; [discriminate |].
  destruct (findIndex f l); [discriminate |]. constructor; auto.
Qed.

Lemma findIndex_first (l1 l2 : list A) (x : A) :
  Forall (fun y => f y = false) l1 -> f x = true ->
  findIndex f (l1 ++ x :: l2) = Some (length l1).
Proof.
  induction 1 as [|a l1 Fa _ IH]; intros Fx; simpl.
  - by rewrite Fx.
  - rewrite Fa, IH by assumption. reflexivity.
Qed.

Lemma filter_none (l : list A) :
  Forall (fun y => f y = false) l -> List.filter f l = [].
Proof. induction 1 as [|a l Fa _ IH]; simpl; [reflexivity |]. by rewrite Fa. Qed.
End FindIndex.

Lemma sameKey_refl (keyField : string) (entry : Row) :
  sameKey keyField entry entry = true.
Proof. unfold sameKey. by apply bool_decide_eq_true_2. Qed.

Lemma uniqueKeys_after (keyField : string) (entry x : Row) (l1 l2 : list Row) :
  uniqueKeys keyField (l1 ++ x :: l2) -> sameKey keyField entry x = true ->
  Forall (fun y => sameKey keyField entry y = false) l2.
Proof.
  unfold uniqueKeys, sameKey. rewrite map_app. simpl.
  intros Hnd Hx. apply bool_decide_eq_true_1 in Hx.
  apply NoDup_app in Hnd as (_ & _ & Hnd). apply NoDup_cons in Hnd as [Hnotin _].
  apply Forall_forall. intros y Hy. apply bool_decide_eq_false_2. intros Heq.
  apply Hnotin. rewrite Hx, <- Heq. apply list_elem_of_In, in_map_iff.
  exists y. split; [reflexivity |]. by apply list_elem_of_In.
Qed.

Lemma insert_middle {A : Type} (l1 l2 : list A) (x y : A) :
  <[length l1 := y]> (l1 ++ x :: l2) = l1 ++ y :: l2.
Proof. induction l1 as [|a l1 IH]; simpl; [reflexivity |]. by rewrite IH. Qed.

(** C3.  Upserting a row twice gives the same sheet as upserting it
    once: a matching row is replaced where it stood, otherwise the new row
    is appended, and [total] and [limit] are the row count.  On a sheet
    whose rows have unique key values (the invariant of the data model)
    the result has exactly one row with the key of the new row, and it is
    the new row. *)
Theorem addEntry_idempotent (dataSheet : option Sheet) (entry : Row) (keyField : string) :
  let rows := default [] (dataSheet ≫= data) in
  let once := addEntry dataSheet entry keyField in
  let twice := addEntry (Some once) entry keyField in
  twice = once
  /\ (exists rows',
        data twice = Some rows'
        /\ total twice = Some (length rows') /\ limit twice = Some (length rows')
        /\ match findIndex (sameKey keyField entry) rows with
           | Some i => rows' = <[i := entry]> rows /\ rows' !! i = Some entry
           | None => rows' = rows ++ [entry]
           end
        /\ (uniqueKeys keyField rows ->
            List.filter (sameKey keyField entry) rows' = [entry])).
Proof.
  intros rows once twice.
  assert (Hagain : forall l1 l2,
            Forall (fun y => sameKey keyField entry y = false) l1 ->
            addEntry (Some (createSheetStructure (l1 ++ entry :: l2))) entry keyField
            = createSheetStructure (l1 ++ entry :: l2)).
  { intros l1 l2 Hbefore. unfold addEntry. simpl.
    rewrite (findIndex_first _ l1 l2 entry Hbefore (sameKey_refl _ _)).
    by rewrite insert_middle. }
  destruct (findIndex (sameKey keyField entry) rows) as [i|] eqn:Hfind.
  - destruct (findIndex_Some _ _ _ Hfind) as (l1 & x & l2 & Hrows & <- & Fx & Hbefore).
    assert (Honce : once = createSheetStructure (l1 ++ entry :: l2)).
    { unfold once, addEntry. fold rows. rewrite Hfind, Hrows. by rewrite insert_middle. }
    subst twice. rewrite Honce, (Hagain l1 l2 Hbefore). split; [reflexivity |].
    exists (l1 ++ entry :: l2). rewrite Hrows, insert_middle.
    split; [reflexivity |]. split; [reflexivity |]. split; [reflexivity |].
    split; [split; [reflexivity | by apply list_lookup_middle] |].
    intros Hafter. apply uniqueKeys_after with (entry := entry) in Hafter; [| assumption].
    rewrite List.filter_app. simpl. rewrite sameKey_refl.
    by rewrite (filter_none _ _ Hbefore), (filter_none _ _ Hafter).
  - pose proof (findIndex_None _ _ Hfind) as Hnone.
    assert (Honce : once = createSheetStructure (rows ++ [entry])).
    { unfold once, addEntry. fold rows. by rewrite Hfind. }
    subst twice. rewrite Honce, (Hagain rows [] Hnone). split; [reflexivity |].
    exists (rows ++ [entry]).
    split; [reflexivity |]. split; [reflexivity |]. split; [reflexivity |].
    split; [reflexivity |]. intros _.
    rewrite List.filter_app. simpl. rewrite sameKey_refl.
    by rewrite (filter_none _ _ Hnone).
Qed.

Lemma addEntry_idempotent_witness :
  uniqueKeys "key" (default [] (Some iconSheet ≫= data))
  /\ exists rows',
       data (addEntry (Some (addEntry (Some iconSheet) emailIcon "key")) emailIcon "key")
       = Some rows'
       /\ List.filter (sameKey "key" emailIcon) rows' = [emailIcon].
Proof.
  assert (H : uniqueKeys "key" (default [] (Some iconSheet ≫= data))).
  { unfold uniqueKeys. apply (bool_decide_unpack _). vm_compute. exact I. }
  split; [exact H |].
  destruct (proj2 (addEntry_idempotent (Some iconSheet) emailIcon "key"))
    as (rows' & Hd & _ & _ & _ & Hone).
  exists rows'. split; [exact Hd | exact (Hone H)].
Defined.

(** ** Batch upsert *)

(** One step of a computation whose first action has been evaluated. *)
Ltac run_lift :=
  change (lift (Ok ?x)) with (ret x);
  unfold bind at 1, ret at 1; cbv beta iota.

Section Batch.
Variables (org repo keyField path : string).
Variable createSheetFn : list Row -> completion Doc.
Variable createEntry : Item -> completion Row.

Local Abbreviation url := (formatURL "source" org repo path "json").

(** What a read does, by the head of the fault schedule. *)
Lemma getSheetJSON_cases (w : World) :
  getSheetJSON org repo path w
  = match faults w with
    | Some message :: rest =>
        (if includes "404" message then Ok None else Throw message,
         {| store := store w; faults := rest |})
    | None :: rest => (Ok (store w !! url), {| store := store w; faults := rest |})
    | [] => (Ok (store w !! url), w)
    end.
Proof.
  destruct w as [st [|[message|] rest]];
    unfold getSheetJSON, try_catch, bind, daAdminRequest, bind, request;
    cbn [faults store].
  - by destruct (st !! _).
  - by destruct (includes "404" message).
  - by destruct (st !! _).
Qed.

(** What a write does, by the head of the fault schedule. *)
Lemma uploadSheetJSON_cases (doc : Doc) (w : World) :
  uploadSheetJSON org repo path doc w
  = match faults w with
    | Some message :: rest => (Throw message, {| store := store w; faults := rest |})
    | None :: rest => (Ok tt, {| store := <[url := doc]> (store w); faults := rest |})
    | [] => (Ok tt, {| store := <[url := doc]> (store w); faults := [] |})
    end.
Proof. destruct w as [st [|[message|] rest]]; reflexivity. Qed.

(** An upsert that returns has stored the encoded upserted rows; one
    that throws has left the store as it was. *)
Lemma addSheetItem_effect (entry : Row) (w : World) :
  match addSheetItem org repo entry keyField path createSheetFn w with
  | (Ok r, w') =>
      exists doc,
        createSheetFn (default [] (data (addEntry (sheetRead org repo path w) entry keyField)))
        = Ok doc
        /\ store w' = <[url := doc]> (store w)
        /\ ar_existed r
           = entryExists (sheetRead org repo path w) (entry !! keyField) keyField
  | (Throw _, w') => store w' = store w
  end.
Proof.
  unfold addSheetItem. unfold bind at 1. rewrite getSheetJSON_cases.
  assert (Hgo : forall (sheetJSON : option Doc) (w1 : World),
    store w1 = store w ->
    match sheetJSON with Some _ => getDataSheet sheetJSON | None => None end
    = sheetRead org repo path w ->
    match
      (let dataSheet :=
         match sheetJSON with Some _ => getDataSheet sheetJSON | None => None end in
       let existed :=
         match dataSheet with
         | Some _ => entryExists dataSheet (entry !! keyField) keyField
         | None => false
         end in
       let updatedDataSheet := addEntry dataSheet entry keyField in
       newSheetJSON <- lift (createSheetFn (default [] (data updatedDataSheet))) ;;
       _ <- uploadSheetJSON org repo path newSheetJSON ;;
       ret {| ar_added := true; ar_existed := existed; ar_path := path;
              ar_entry := entry |}) w1
    with
    | (Ok r, w') =>
        exists doc,
          createSheetFn
            (default [] (data (addEntry (sheetRead org repo path w) entry keyField)))
          = Ok doc
          /\ store w' = <[url := doc]> (store w)
          /\ ar_existed r
             = entryExists (sheetRead org repo path w) (entry !! keyField) keyField
    | (Throw _, w') => store w' = store w
    end).
  { intros sheetJSON w1 Hstore Hread. cbv zeta. rewrite Hread.
    destruct (createSheetFn _) as [doc | message] eqn:Hdoc.
    - run_lift. unfold bind at 1. rewrite uploadSheetJSON_cases.
      destruct (faults w1) as [|[message|] rest]; cbv beta iota; unfold ret;
        cbn [store ar_existed]; rewrite ?Hstore; try reflexivity.
      + exists doc. split; [reflexivity |]. split; [reflexivity |].
        by destruct (sheetRead org repo path w).
      + exists doc. split; [reflexivity |]. split; [reflexivity |].
        by destruct (sheetRead org repo path w).
    - unfold bind, lift, throw. exact Hstore. }
  destruct (faults w) as [|[message|] rest] eqn:Hf; cbv beta iota.
  - apply (Hgo (store w !! url) w); [reflexivity |]. unfold sheetRead. rewrite Hf.
    by destruct (store w !! url).
  - destruct (includes "404" message); cbv beta iota.
    + apply (Hgo None {| store := store w; faults := rest |}); [reflexivity |].
      unfold sheetRead. by rewrite Hf.
    + reflexivity.
  - apply (Hgo (store w !! url) {| store := store w; faults := rest |}); [reflexivity |].
    unfold sheetRead. rewrite Hf. by destruct (store w !! url).
Qed.

Local Abbreviation step := (setupStep org repo keyField path createSheetFn createEntry).
Local Abbreviation loop := (setupLoop org repo keyField path createSheetFn createEntry).
Local Abbreviation attempted :=
  (Attempted org repo keyField path createSheetFn createEntry).
Local Abbreviation processed :=
  (Processed org repo keyField path createSheetFn createEntry).

(** The loop body never throws: it attempts the item and returns the
    result extended by the outcome, counted in exactly one counter. *)
Lemma setupStep_outcome (result : SetupResult) (item : Item) (w : World) :
  exists result' w' o t,
    step result item w = (Ok result', w')
    /\ items result' = items result ++ [o]
    /\ attempted w item o w'
    /\ o_item o = item /\ tallyOf o = Some t
    /\ s_total (summary result') = s_total (summary result)
    /\ s_added (summary result')
       = s_added (summary result) + (if bool_decide (t = Added) then 1 else 0)
    /\ s_updated (summary result')
       = s_updated (summary result) + (if bool_decide (t = Updated) then 1 else 0)
    /\ s_failed (summary result')
       = s_failed (summary result) + (if bool_decide (t = Failed) then 1 else 0)
    /\ errors result' = errors result ++ option_list (errorLine keyField o)
    /\ success result' = success result.
Proof.
  unfold setupStep, try_catch. unfold bind at 1.
  destruct (createEntry item) as [entry | message] eqn:Hentry.
  - change (lift (Ok entry) w) with (Ok entry, w). cbv beta iota. unfold bind at 1.
    pose proof (addSheetItem_effect entry w) as Heffect.
    destruct (addSheetItem org repo entry keyField path createSheetFn w)
      as [[addResult | message] w'] eqn:Hadd; cbv beta iota; unfold ret.
    + destruct Heffect as (doc & Hdoc & Hstore & Hexisted).
      assert (Hatt : attempted w item (succeeded item (ar_existed addResult)) w')
        by (eapply Attempted_stored; eassumption).
      destruct (ar_existed addResult) eqn:Ex.
      * eexists _, _, _, Updated. split; [reflexivity |]. simpl.
        split; [reflexivity |]. split; [exact Hatt |].
        rewrite app_nil_r. repeat split; lia.
      * eexists _, _, _, Added. split; [reflexivity |]. simpl.
        split; [reflexivity |]. split; [exact Hatt |].
        rewrite app_nil_r. repeat split; lia.
    + eexists _, _, _, Failed. split; [reflexivity |]. simpl.
      split; [reflexivity |].
      split; [eapply Attempted_failed; eassumption |]. repeat split; lia.
  - change (lift (Throw message) w) with (@Throw Row message, w). cbv beta iota.
    unfold ret. eexists _, _, _, Failed. split; [reflexivity |]. simpl.
    split; [reflexivity |].
    split; [apply Attempted_no_entry; assumption |]. repeat split; lia.
Qed.

Lemma setupLoop_outcomes (rest : list Item) :
  forall (result : SetupResult) (w : World),
  exists result' w' outcomes,
    loop result rest w = (Ok result', w')
    /\ items result' = items result ++ outcomes
    /\ processed w rest outcomes w'
    /\ map o_item outcomes = rest
    /\ Forall (fun o => is_Some (tallyOf o)) outcomes
    /\ s_total (summary result') = s_total (summary result)
    /\ s_added (summary result') = s_added (summary result) + countTally Added outcomes
    /\ s_updated (summary result')
       = s_updated (summary result) + countTally Updated outcomes
    /\ s_failed (summary result') = s_failed (summary result) + countTally Failed outcomes
    /\ errors result' = errors result ++ omap (errorLine keyField) outcomes
    /\ success result' = success result.
Proof.
  induction rest as [|item rest IH]; intros result w.
  - exists result, w, []. simpl. rewrite !app_nil_r. unfold countTally. simpl.
    repeat split; try lia; constructor.
  - destruct (setupStep_outcome result item w)
      as (r1 & w1 & o & t & Hstep & Hitems & Hatt & Hitem & Ht & Htot & Ha & Hu & Hf
          & He & Hs).
    destruct (IH r1 w1)
      as (r2 & w2 & os & Hloop & Hitems2 & Hproc & Hmap & Hall & Htot2 & Ha2 & Hu2 & Hf2
          & He2 & Hs2).
    exists r2, w2, (o :: os). simpl. unfold bind. rewrite Hstep, Hloop.
    assert (Hc : forall t0, countTally t0 (o :: os)
                 = (if bool_decide (t = t0) then 1 else 0) + countTally t0 os).
    { intros t0. unfold countTally. simpl. rewrite Ht.
      destruct (decide (t = t0)) as [-> | Hne].
      - rewrite !bool_decide_eq_true_2 by reflexivity. reflexivity.
      - rewrite !bool_decide_eq_false_2 by congruence. reflexivity. }
    rewrite !Hc. repeat split; try congruence; try lia.
    + rewrite Hitems2, Hitems, <- app_assoc. reflexivity.
    + econstructor; eassumption.
    + constructor; [by rewrite Ht | assumption].
    + rewrite He2, He, <- app_assoc. f_equal. by destruct (errorLine keyField o).
Qed.

Lemma countTally_failed (outcomes : list ItemOutcome) :
  length (omap (errorLine keyField) outcomes) = countTally Failed outcomes.
Proof.
  unfold countTally.
  induction outcomes as [|[item ok existed message] os IH]; [reflexivity |].
  change (omap (errorLine keyField) (mkItemOutcome item ok existed message :: os))
    with (match errorLine keyField (mkItemOutcome item ok existed message) with
          | Some line => line :: omap (errorLine keyField) os
          | None => omap (errorLine keyField) os
          end).
  cbn [List.filter]. unfold errorLine at 1, tallyOf at 1. cbn [o_success o_existed].
  destruct ok; [destruct existed as [[]|] |]; simpl; rewrite IH; reflexivity.
Qed.

(** C5.  A batch processes every input item, whatever fails on the
    way.  It returns normally, and its outcomes are those of attempting
    the items one after the other, each from the world its predecessor
    left ([Processed]): an item whose entry cannot be built, or whose
    upsert through [addSheetItem] throws, is reported as failed with the
    store left as it was, and the next item is attempted all the same;
    an item that succeeds has stored the encoded upserted rows.  [total]
    is the number of inputs, there is one outcome per input, in input
    order, each counted in exactly one of [added], [updated] and
    [failed]; [errors] holds one line per failure, in order; [success]
    is true exactly when [failed] is 0. *)
Theorem setupSheetItems_processes_all (inputs : list Item) (w : World) :
  exists result w',
    setupSheetItems org repo keyField path createSheetFn createEntry inputs w
    = (Ok result, w')
    /\ processed w inputs (items result) w'
    /\ s_total (summary result) = length inputs
    /\ map o_item (items result) = inputs
    /\ Forall (fun o => is_Some (tallyOf o)) (items result)
    /\ s_added (summary result) = countTally Added (items result)
    /\ s_updated (summary result) = countTally Updated (items result)
    /\ s_failed (summary result) = countTally Failed (items result)
    /\ s_added (summary result) + s_updated (summary result) + s_failed (summary result)
       = length inputs
    /\ errors result = omap (errorLine keyField) (items result)
    /\ length (errors result) = s_failed (summary result)
    /\ (success result = Some true <-> s_failed (summary result) = 0)
    /\ (success result = Some false <-> s_failed (summary result) <> 0).
Proof.
  unfold setupSheetItems.
  match goal with |- context [ loop ?r0 inputs ] =>
    destruct (setupLoop_outcomes inputs r0 w)
      as (r & w' & os & Hloop & Hitems & Hproc & Hmap & Hall & Htot & Ha & Hu & Hf & He
          & Hs)
  end.
  simpl in *. eexists _, w'. unfold bind. rewrite Hloop. unfold ret. simpl.
  split; [reflexivity |].
  assert (Hsum : countTally Added os + countTally Updated os + countTally Failed os
                 = length os).
  { clear -Hall. induction Hall as [|o os [t Ht] _ IH]; [reflexivity |].
    unfold countTally in *. simpl. rewrite Ht.
    destruct t; simpl; lia. }
  rewrite Hitems. assert (Hlen : length inputs = length os).
  { by rewrite <- Hmap, length_map. }
  pose proof (countTally_failed os) as Hfailed.
  simpl. repeat split; try lia; try assumption.
  - rewrite He. lia.
  - intros [= H]. by apply Nat.eqb_eq in H.
  - intros H. f_equal. by apply Nat.eqb_eq.
  - intros [= H]. by apply Nat.eqb_neq in H.
  - intros H. f_equal. by apply Nat.eqb_neq.
Qed.

End Batch.

(** Three icons, the transport failing while the second one is read: the
    first and the third are stored, the second is reported. *)
Example setupSheetItems_one_failure :
  exists result w',
    setupSheetItems "org" "site" "key" "/library/icons" createIconsJSON createIconEntry
                    threeIcons flakyWorld = (Ok result, w')
    /\ summary result = {| s_total := 3; s_added := 2; s_updated := 0; s_failed := 1 |}
    /\ map o_success (items result) = [true; false; true]
    /\ success result = Some false
    /\ errors result = ["email: API 500 Internal Server Error"]
    /\ (store w' !! formatURL "source" "org" "site" "/library/icons" "json")
       = Some (createSheet
           [ {[ "key" := "search"; "icon" := "/icons/search.svg" ]};
             {[ "key" := "phone"; "icon" := "/icons/phone.svg" ]} ]).
Proof.
  eexists _, _. split; [vm_compute; reflexivity |]. vm_compute. repeat split.
Qed.

(** ** The options sheet of a blocks document *)

Lemma getBlocksPath_ok (baseFolder : string) :
  getBlocksPath baseFolder = Ok (blocksPath baseFolder).
Proof. reflexivity. Qed.

Lemma createLibraryJSON_blocks (entries : list Row) (optionsSheet : option Sheet) :
  createLibraryJSON "blocks" entries optionsSheet
  = Ok (createMultiSheetJSON
          [ ("data", {| total := None; limit := None; offset := None;
                        data := Some entries; colWidths := None |});
            ("options", default createDefaultBlockOptions optionsSheet) ]).
Proof. destruct optionsSheet; reflexivity. Qed.

(** A request that meets no fault reads the store. *)
Lemma getSheetJSON_found (org repo path : string) (w : World) (d : Doc) :
  faults w = [] -> store w !! formatURL "source" org repo path "json" = Some d ->
  getSheetJSON org repo path w = (Ok (Some d), w).
Proof.
  intros Hf Hs. unfold getSheetJSON, try_catch, bind, daAdminRequest, bind, request.
  rewrite Hf, Hs. reflexivity.
Qed.

Lemma uploadSheetJSON_stores (org repo path : string) (w : World) (d : Doc) :
  faults w = [] ->
  uploadSheetJSON org repo path d w
  = (Ok tt, {| store := <[formatURL "source" org repo path "json" := d]> (store w);
               faults := [] |}).
Proof.
  intros Hf. destruct w as [st fs]. simpl in Hf. subst fs. reflexivity.
Qed.

Section Options.
Variable toUpperCase : string -> string.
Variables (org repo blockName baseFolder : string) (displayName : option string).

End Options.


(** C6 fails on the code.  The blocks document carries an options
    sheet with column widths.  [addBlock] and [removeBlock] hand the
    sheet to [createLibraryJSON] to have it carried over and report
    [optionsPreserved], but [createMultiSheetJSON] rebuilds every sheet
    from its rows alone: the options sheet of the stored document has
    lost its column widths. *)
Theorem options_sheet_not_preserved :
  let url := blocksUrl "org" "site" "library" in
  getOptionsSheet (store blocksWorld !! url) = Some optionsWithWidths
  /\ colWidths optionsWithWidths = Some [150; 400]
  /\ (exists r w',
        addBlock (fun s => s) "org" "site" "cards" (Some "Cards") "library" blocksWorld
        = (Ok r, w')
        /\ ab_optionsPreserved r = true
        /\ (getOptionsSheet (store w' !! url) ≫= colWidths) = None)
  /\ (exists r w',
        removeBlock "org" "site" "Hero" "library" blocksWorld = (Ok r, w')
        /\ rb_optionsPreserved r = Some true
        /\ (getOptionsSheet (store w' !! url) ≫= colWidths) = None).
Proof.
  cbv zeta. split; [vm_compute; reflexivity |]. split; [reflexivity |].
  split; eexists _, _; (split; [vm_compute; reflexivity |]);
    split; vm_compute; reflexivity.
Qed.

(** ** Registration of a library type *)

Lemma obj_get_set {V : Type} (o : list (string * V)) (k : string) (v : V) :
  obj_get (obj_set o k v) k = Some v.
Proof.
  induction o as [|[k' v'] o IH]; simpl.
  - by rewrite String.eqb_refl.
  - destruct (String.eqb k' k) eqn:E; simpl; rewrite E; [reflexivity | exact IH].
Qed.

Lemma ensureLibraryColumns_keeps (newEntry : Row) (existingEntries : list Row)
    (k v : string) :
  newEntry !! k = Some v -> ensureLibraryColumns newEntry existingEntries !! k = Some v.
Proof.
  unfold ensureLibraryColumns. destruct existingEntries as [|firstEntry _]; [done |].
  generalize (map fst (map_to_list firstEntry)). intros keys. revert newEntry.
  induction keys as [|key keys IH]; intros newEntry H; simpl; [exact H |].
  apply IH. destruct (hasProperty key newEntry) eqn:E; [exact H |].
  rewrite lookup_insert_ne; [exact H |]. intros ->.
  unfold hasProperty in E. apply orb_false_iff in E as [E _].
  apply bool_decide_eq_false_1 in E. apply E. eauto.
Qed.

Lemma createLibraryEntry_title (libraryType configPath : string) (rows : list Row) :
  createLibraryEntry libraryType configPath rows !! "title" = Some libraryType
  /\ createLibraryEntry libraryType configPath rows !! "path" = Some configPath.
Proof.
  unfold createLibraryEntry. split; apply ensureLibraryColumns_keeps.
  - apply lookup_insert_eq.
  - rewrite lookup_insert_ne by discriminate. apply lookup_insert_eq.
Qed.

Lemma hasTitle_false_omap (libraryType : string) (rows : list Row) :
  Forall (fun y => hasTitle libraryType y = false) rows ->
  libraryType ∉ omap (fun row : Row => row !! "title") rows.
Proof.
  induction 1 as [|row rows Hrow _ IH]; simpl; [apply not_elem_of_nil |].
  unfold hasTitle in Hrow. apply bool_decide_eq_false_1 in Hrow.
  destruct (row !! "title") as [t|]; [| exact IH].
  apply not_elem_of_cons. split; [congruence | exact IH].
Qed.

Lemma omap_not_in_hasTitle (libraryType : string) (rows : list Row) :
  libraryType ∉ omap (fun row : Row => row !! "title") rows ->
  Forall (fun y => hasTitle libraryType y = false) rows.
Proof.
  induction rows as [|row rows IH]; simpl; intros H; [constructor |].
  unfold hasTitle at 1. destruct (row !! "title") as [t|] eqn:E.
  - apply not_elem_of_cons in H as [Hne H]. constructor; [| by apply IH].
    unfold hasTitle. rewrite E. apply bool_decide_eq_false_2. congruence.
  - constructor; [| by apply IH]. unfold hasTitle. rewrite E. by apply bool_decide_eq_false_2.
Qed.

Lemma alter_middle {A : Type} (f : A -> A) (l1 l2 : list A) (x : A) :
  alter f (length l1) (l1 ++ x :: l2) = l1 ++ f x :: l2.
Proof. induction l1 as [|a l1 IH]; simpl; [reflexivity |]. f_equal. exact IH. Qed.

(** What one registration does to the rows of the library sheet. *)
Lemma registered_rows (libraryType configPath : string) (rows : list Row) :
  uniqueTitles rows ->
  let rows' :=
    match findIndex (fun item => bool_decide (item !! "title" = Some libraryType)) rows with
    | Some i => alter (fun item : Row => <["path" := configPath]> item) i rows
    | None => rows ++ [createLibraryEntry libraryType configPath rows]
    end in
  uniqueTitles rows'
  /\ exists row,
       List.filter (hasTitle libraryType) rows' = [row]
       /\ row !! "title" = Some libraryType /\ row !! "path" = Some configPath.
Proof.
  intros Huniq.
  change (fun item : Row => bool_decide (item !! "title" = Some libraryType))
    with (hasTitle libraryType).
  destruct (findIndex (hasTitle libraryType) rows) as [i|] eqn:Hfind; cbv zeta.
  - destruct (findIndex_Some _ _ _ Hfind) as (l1 & x & l2 & -> & <- & Fx & Hbefore).
    rewrite alter_middle.
    assert (Htitle : (<["path" := configPath]> x : Row) !! "title" = x !! "title").
    { by rewrite lookup_insert_ne. }
    assert (Hx : x !! "title" = Some libraryType).
    { unfold hasTitle in Fx. by apply bool_decide_eq_true_1 in Fx. }
    assert (Hsame : omap (fun row : Row => row !! "title")
                      (l1 ++ <["path" := configPath]> x :: l2)
                    = omap (fun row : Row => row !! "title") (l1 ++ x :: l2)).
    { rewrite !omap_app. simpl. by rewrite Htitle. }
    split; [unfold uniqueTitles; by rewrite Hsame |].
    exists (<["path" := configPath]> x). repeat split.
    + unfold uniqueTitles in Huniq. rewrite omap_app in Huniq. simpl in Huniq.
      rewrite Hx in Huniq. apply NoDup_app in Huniq as (_ & _ & Hnd).
      apply NoDup_cons in Hnd as [Hnotin _]. apply omap_not_in_hasTitle in Hnotin.
      rewrite List.filter_app. simpl.
      assert (Hyes : hasTitle libraryType (<["path" := configPath]> x) = true).
      { unfold hasTitle. rewrite Htitle. by apply bool_decide_eq_true_2. }
      rewrite Hyes. by rewrite (filter_none _ _ Hbefore), (filter_none _ _ Hnotin).
    + by rewrite Htitle.
    + apply lookup_insert_eq.
  - pose proof (findIndex_None _ _ Hfind) as Hnone.
    destruct (createLibraryEntry_title libraryType configPath rows) as [Ht Hp].
    split.
    + unfold uniqueTitles. rewrite omap_app. simpl. rewrite Ht.
      apply NoDup_app. split; [exact Huniq |]. split; [| apply NoDup_singleton].
      intros t Hin Hin'. apply list_elem_of_singleton in Hin'. subst t.
      by apply (hasTitle_false_omap _ _ Hnone).
    + eexists. repeat split; [| exact Ht | exact Hp].
      rewrite List.filter_app. simpl. unfold hasTitle at 2. rewrite Ht.
      rewrite bool_decide_eq_true_2 by reflexivity. by rewrite (filter_none _ _ Hnone).
Qed.

Lemma getSiteConfig_found (org repo : string) (w : World) (d : Doc) :
  faults w = [] -> store w !! buildConfigUrl org repo = Some d ->
  getSiteConfig org repo w = (Ok d, w).
Proof.
  intros Hf Hs. unfold getSiteConfig, try_catch, daAdminRequest, bind, request.
  rewrite Hf, Hs. reflexivity.
Qed.

Lemma uploadConfig_stores (org repo : string) (w : World) (d : Doc) :
  faults w = [] ->
  uploadConfig org repo d w
  = (Ok tt, {| store := <[buildConfigUrl org repo := d]> (store w); faults := [] |}).
Proof. intros Hf. destruct w as [st fs]. simpl in Hf. subst fs. reflexivity. Qed.

(** One registration into a configuration that has a library sheet. *)
Lemma registerLibraryType_once (org repo libraryType configPath : string)
    (w : World) (rows : list Row) :
  faults w = [] ->
  libraryRows org repo w = Some rows ->
  uniqueTitles rows ->
  exists r w' rows',
    registerLibraryType org repo libraryType configPath w = (Ok r, w')
    /\ registered r = true /\ libraryEntryCount r = Some (length rows')
    /\ faults w' = []
    /\ libraryRows org repo w' = Some rows'
    /\ uniqueTitles rows'
    /\ exists row,
         List.filter (hasTitle libraryType) rows' = [row]
         /\ row !! "title" = Some libraryType /\ row !! "path" = Some configPath.
Proof.
  intros Hf Hrows Huniq. unfold libraryRows in Hrows.
  destruct (store w !! buildConfigUrl org repo) as [[tag s | m]|] eqn:Hs; try discriminate.
  destruct (obj_get (sheets m) "library") as [lib|] eqn:Hlib; [| discriminate].
  simpl in Hrows.
  destruct (registered_rows libraryType configPath rows Huniq) as [Huniq' Hrow].
  unfold registerLibraryType, try_catch. unfold bind at 1.
  rewrite (getSiteConfig_found org repo w (Multi m) Hf Hs). cbv beta iota.
  cbn [ensureLibrarySheet]. rewrite Hlib. cbn [librarySheet]. rewrite Hrows.
  unfold bind at 1. rewrite (uploadConfig_stores org repo w _ Hf). cbv beta iota.
  unfold ret. eexists _, _, _. split; [reflexivity |].
  cbn [registered libraryEntryCount faults].
  split; [reflexivity |]. split; [reflexivity |]. split; [reflexivity |].
  split; [| split; [exact Huniq' | exact Hrow]].
  unfold libraryRows. cbn [store]. rewrite lookup_insert_eq.
  unfold mutatedConfig. cbn [newConfig sheetExisted]. rewrite Hlib.
  cbn [sheets]. rewrite obj_get_set. reflexivity.
Qed.

(** C4.  In a site configuration whose library sheet has rows with
    unique titles, and with a transport that does not fail, registering a
    library type twice, with two paths, succeeds both times and leaves
    exactly one row with that title in the library sheet of the stored
    configuration; its path is the second one. *)
Theorem registerLibraryType_twice (org repo libraryType path1 path2 : string)
    (w : World) (rows : list Row) :
  faults w = [] ->
  libraryRows org repo w = Some rows ->
  uniqueTitles rows ->
  exists r1 w1 r2 w2 rows2 row,
    registerLibraryType org repo libraryType path1 w = (Ok r1, w1)
    /\ registerLibraryType org repo libraryType path2 w1 = (Ok r2, w2)
    /\ registered r1 = true /\ registered r2 = true
    /\ libraryRows org repo w2 = Some rows2
    /\ List.filter (hasTitle libraryType) rows2 = [row]
    /\ row !! "title" = Some libraryType
    /\ row !! "path" = Some path2.
Proof.
  intros Hf Hrows Huniq.
  destruct (registerLibraryType_once org repo libraryType path1 w rows Hf Hrows Huniq)
    as (r1 & w1 & rows1 & H1 & Hr1 & _ & Hf1 & Hrows1 & Huniq1 & _).
  destruct (registerLibraryType_once org repo libraryType path2 w1 rows1 Hf1 Hrows1 Huniq1)
    as (r2 & w2 & rows2 & H2 & Hr2 & _ & _ & Hrows2 & _ & row & Hrow & Ht & Hp).
  exists r1, w1, r2, w2, rows2, row. repeat split; assumption.
Qed.

Lemma registerLibraryType_twice_witness :
  exists r1 w1 r2 w2 rows2 row,
    registerLibraryType "org" "site" "Blocks" "/a/blocks.json" siteWorld = (Ok r1, w1)
    /\ registerLibraryType "org" "site" "Blocks" "/b/blocks.json" w1 = (Ok r2, w2)
    /\ registered r1 = true /\ registered r2 = true
    /\ libraryRows "org" "site" w2 = Some rows2
    /\ List.filter (hasTitle "Blocks") rows2 = [row]
    /\ row !! "title" = Some "Blocks"
    /\ row !! "path" = Some "/b/blocks.json".
Proof.
  refine (registerLibraryType_twice "org" "site" "Blocks" "/a/blocks.json" "/b/blocks.json"
            siteWorld _ _ _ _).
  - reflexivity.
  - vm_compute. reflexivity.
  - unfold uniqueTitles. apply (bool_decide_unpack _). vm_compute. exact I.
Defined.

(** ** The matcher *)

Section Run.
Variable ignoreCase : bool.

Lemma run_Chr (c : ascii) (p : pattern) (prev : option ascii) (s : string)
    (pos gs : nat) (g : option (nat * nat)) :
  run ignoreCase (Chr c :: p) prev s pos gs g
  = match s with
    | String a s' =>
        if sameChar ignoreCase a c then run ignoreCase p (Some a) s' (S pos) gs g else None
    | EmptyString => None
    end.
Proof. reflexivity. Qed.

Lemma run_Rep (set : ascii -> bool) (p : pattern) (prev : option ascii) (s : string)
    (pos gs : nat) (g : option (nat * nat)) :
  run ignoreCase (Rep set :: p) prev s pos gs g
  = match s with
    | String a s' =>
        if set a then
          match run ignoreCase (Rep set :: p) (Some a) s' (S pos) gs g with
          | Some r => Some r
          | None => run ignoreCase p prev s pos gs g
          end
        else run ignoreCase p prev s pos gs g
    | EmptyString => run ignoreCase p prev s pos gs g
    end.
Proof. destruct s; reflexivity. Qed.

Lemma chars_cons (c : ascii) (lit : string) : chars (String c lit) = Chr c :: chars lit.
Proof. reflexivity. Qed.

(** A pattern that starts with the characters of [lit] matches only
    where [lit] stands. *)
Lemma run_chars_matchesAt (lit : string) (post : pattern) :
  forall prev s pos gs g r,
    run ignoreCase (chars lit ++ post) prev s pos gs g = Some r ->
    matchesAt ignoreCase lit s = true.
Proof.
  induction lit as [|c lit IH]; intros prev s pos gs g r H; [reflexivity |].
  rewrite chars_cons in H. cbn [app] in H. rewrite run_Chr in H.
  destruct s as [|a s]; [discriminate |]. cbn [matchesAt].
  destruct (sameChar ignoreCase a c); [| discriminate]. simpl. eauto.
Qed.

Lemma occursIn_here (lit s : string) :
  matchesAt ignoreCase lit s = true -> occursIn ignoreCase lit s = true.
Proof. intros H. destruct s; cbn [occursIn]; rewrite H; reflexivity. Qed.

Lemma occursIn_later (lit : string) (a : ascii) (s : string) :
  occursIn ignoreCase lit s = true -> occursIn ignoreCase lit (String a s) = true.
Proof. intros H. cbn [occursIn]. rewrite H. apply orb_true_r. Qed.

(** A pattern that holds the characters of [lit] matches only in front
    of an occurrence of [lit]. *)
Lemma run_occursIn (lit : string) (post pre : pattern) :
  forall prev s pos gs g r,
    run ignoreCase (pre ++ chars lit ++ post) prev s pos gs g = Some r ->
    occursIn ignoreCase lit s = true.
Proof.
  induction pre as [|[c | set | | |] pre IH]; intros prev s pos gs g r H.
  - apply occursIn_here. eapply run_chars_matchesAt. exact H.
  - cbn [app] in H. rewrite run_Chr in H. destruct s as [|a s]; [discriminate |].
    destruct (sameChar ignoreCase a c); [| discriminate].
    apply occursIn_later. eauto.
  - cbn [app] in H. revert prev pos r H.
    induction s as [|a s IHs]; intros prev pos r H; rewrite run_Rep in H; [eauto |].
    destruct (set a); [| eauto].
    destruct (run ignoreCase (Rep set :: pre ++ chars lit ++ post) (Some a) s (S pos) gs g)
      as [r'|] eqn:E; [| eauto].
    apply occursIn_later. eapply IHs. exact E.
  - cbn [app run] in H. destruct (xorb _ _); [eauto | discriminate].
  - cbn [app run] in H. eauto.
  - cbn [app run] in H. eauto.
Qed.

Lemma search_occursIn (lit : string) (post pre : pattern) :
  forall s prev pos m,
    search ignoreCase (pre ++ chars lit ++ post) prev s pos = Some m ->
    occursIn ignoreCase lit s = true.
Proof.
  induction s as [|a s IH]; intros prev pos m H; cbn [search] in H.
  - destruct (run ignoreCase _ prev "" pos 0 None) as [[e g]|] eqn:E; [| discriminate].
    eapply run_occursIn. exact E.
  - destruct (run ignoreCase _ prev (String a s) pos 0 None) as [[e g]|] eqn:E.
    + eapply run_occursIn. exact E.
    + apply occursIn_later. eauto.
Qed.

Lemma seek_occursIn (lit : string) :
  forall n prev s prev' s',
    seek n prev s = Some (prev', s') ->
    occursIn ignoreCase lit s' = true -> occursIn ignoreCase lit s = true.
Proof.
  induction n as [|n IH]; intros prev s prev' s' H Hocc; cbn [seek] in H.
  - injection H as _ <-. exact Hocc.
  - destruct s as [|a s]; [discriminate |]. apply occursIn_later. eauto.
Qed.

Lemma exec_occursIn (lit : string) (post pre : pattern) (str : string) (lastIndex : nat)
    (m : found) :
  exec ignoreCase (pre ++ chars lit ++ post) str lastIndex = Some m ->
  occursIn ignoreCase lit str = true.
Proof.
  unfold exec. destruct (seek lastIndex None str) as [[prev s]|] eqn:E; [| discriminate].
  intros H. eapply seek_occursIn; [exact E |]. eapply search_occursIn. exact H.
Qed.

End Run.

(** ** Block-content extraction *)

(** C1.  On the page of the extraction scenario, extracting [hero]
    gives the inner markup of the first element under [dark], nested
    [div] included, and [Y] under [light].  The scan for the first
    element starts at index 23 with the counter at 1: the opening tag at
    23 raises it to 2, the closing tag at 43 lowers it to 1, the closing
    tag at 49 lowers it to 0, and the trimmed text from 23 to 49 is
    returned. *)
Theorem parseBlockInstances_hero_page :
  parseBlockInstances heroPage "hero"
  = Some [ ("dark", "<div class=" +:+ q +:+ "inner" +:+ q +:+ ">X</div>");
           ("light", "Y") ]
  /\ closeScan (S (String.length heroPage)) heroPage 23 1 23
     = Some (Some ("<div class=" +:+ q +:+ "inner" +:+ q +:+ ">X</div>"))
  /\ exec false divOpenRegex heroPage 23
     = Some {| index := 23; stop := 42; group1 := None |}
  /\ exec false divCloseRegex heroPage 42
     = Some {| index := 43; stop := 49; group1 := None |}
  /\ exec false divCloseRegex heroPage 49
     = Some {| index := 49; stop := 55; group1 := None |}.
Proof. repeat split; vm_compute; reflexivity. Qed.

(** ** Which opening tags can match *)

Lemma openTagRegex_atoms (blockName : string) :
  openTagRegex blockName
  = chars "<div" ++ GroupOpen :: Rep notGt :: chars classAttr ++ valueAtoms blockName.
Proof.
  reflexivity.
Qed.

(** After [[^>]*], the text [class=] and the double quote are met before
    any [>]. *)
Lemma run_classBeforeGt (post : pattern) (gs : nat) (g : option (nat * nat)) :
  forall s prev pos r,
    run true (Rep notGt :: chars classAttr ++ post) prev s pos gs g = Some r ->
    classBeforeGt s = true.
Proof.
  induction s as [|a s IH]; intros prev pos r H; rewrite run_Rep in H.
  - apply run_chars_matchesAt in H. cbn [classBeforeGt]. by rewrite H.
  - cbn [classBeforeGt]. destruct (notGt a).
    + destruct (run true (Rep notGt :: chars classAttr ++ post) (Some a) s (S pos) gs g)
        as [r'|] eqn:E.
      * rewrite (IH _ _ _ E). apply orb_true_r.
      * apply run_chars_matchesAt in H. by rewrite H.
    + apply run_chars_matchesAt in H. by rewrite H.
Qed.

Lemma run_GroupOpen (p : pattern) (prev : option ascii) (s : string) (pos gs : nat)
    (g : option (nat * nat)) :
  run true (GroupOpen :: p) prev s pos gs g = run true p prev s pos pos g.
Proof. reflexivity. Qed.

Lemma run_openTag (blockName : string) :
  forall prev s pos gs g r,
    run true (openTagRegex blockName) prev s pos gs g = Some r ->
    matchesAt true "<div" s = true /\ classBeforeGt (slice 4 s) = true.
Proof.
  intros prev s pos gs g r H.
  rewrite openTagRegex_atoms in H.
  split; [eapply run_chars_matchesAt; exact H |].
  change (chars "<div") with [Chr "<"; Chr "d"; Chr "i"; Chr "v"]%char in H.
  cbn [app] in H.
  do 4 (rewrite run_Chr in H; destruct s as [|? s]; [discriminate |];
        destruct (sameChar true _ _); [| discriminate]).
  rewrite run_GroupOpen in H. cbn [slice]. eapply run_classBeforeGt. exact H.
Qed.

Lemma slice_cons (n : nat) (a : ascii) (s : string) :
  slice (S n) (String a s) = slice n s.
Proof. reflexivity. Qed.

Lemma search_openTag (blockName : string) :
  forall s prev pos m,
    search true (openTagRegex blockName) prev s pos = Some m ->
    pos <= index m
    /\ matchesAt true "<div" (slice (index m - pos) s) = true
    /\ classBeforeGt (slice (index m - pos + 4) s) = true.
Proof.
  assert (Hhere : forall s prev pos e g,
    run true (openTagRegex blockName) prev s pos 0 None = Some (e, g) ->
    let m := {| index := pos; stop := e; group1 := g |} in
    pos <= index m
    /\ matchesAt true "<div" (slice (index m - pos) s) = true
    /\ classBeforeGt (slice (index m - pos + 4) s) = true).
  { intros s prev pos e g E. cbn [index]. rewrite Nat.sub_diag.
    apply run_openTag in E as [H1 H2]. auto. }
  induction s as [|a s IH]; intros prev pos m H; cbn [search] in H.
  - destruct (run true _ prev "" pos 0 None) as [[e g]|] eqn:E; [| discriminate].
    injection H as <-. eapply Hhere. exact E.
  - destruct (run true _ prev (String a s) pos 0 None) as [[e g]|] eqn:E.
    + injection H as <-. eapply Hhere. exact E.
    + apply IH in H as (Hle & H1 & H2).
      replace (index m - pos) with (S (index m - S pos)) by lia.
      cbn [Nat.add]. rewrite !slice_cons. split; [lia | auto].
Qed.

Lemma seek_slice :
  forall n prev s prev' s', seek n prev s = Some (prev', s') -> s' = slice n s.
Proof.
  induction n as [|n IH]; intros prev s prev' s' H; cbn [seek] in H.
  - by injection H as _ <-.
  - destruct s as [|a s]; [discriminate |]. rewrite slice_cons. eauto.
Qed.

Lemma slice_slice (a b : nat) : forall s, slice a (slice b s) = slice (b + a) s.
Proof.
  induction b as [|b IH]; intros s; [reflexivity |].
  destruct s as [|c s]; [by destruct a |]. cbn [Nat.add]. rewrite !slice_cons. apply IH.
Qed.

Lemma exec_openTag (blockName html : string) (lastIndex : nat) (m : found) :
  exec true (openTagRegex blockName) html lastIndex = Some m ->
  lastIndex <= index m
  /\ matchesAt true "<div" (slice (index m) html) = true
  /\ classBeforeGt (slice (index m + 4) html) = true.
Proof.
  unfold exec. destruct (seek lastIndex None html) as [[prev s]|] eqn:E; [| discriminate].
  intros H. apply seek_slice in E. subst s.
  apply search_openTag in H as (Hle & H1 & H2).
  rewrite slice_slice in H1, H2.
  replace (lastIndex + (index m - lastIndex)) with (index m) in H1 by lia.
  replace (lastIndex + (index m - lastIndex + 4)) with (index m + 4) in H2 by lia.
  auto.
Qed.

Lemma divWithClassAttr_at :
  forall i s,
    matchesAt true "<div" (slice i s) = true ->
    classBeforeGt (slice (i + 4) s) = true ->
    divWithClassAttr s = true.
Proof.
  induction i as [|i IH]; intros s H1 H2.
  - cbn [slice Nat.add] in H1. change (0 + 4) with 4 in H2.
    destruct s; cbn [divWithClassAttr]; by rewrite H1, H2.
  - destruct s as [|a s]; [discriminate |].
    cbn [Nat.add] in H2. rewrite slice_cons in H1, H2.
    cbn [divWithClassAttr]. rewrite (IH s H1 H2). apply orb_true_r.
Qed.

(** C10, as amended.  The opening-tag pattern matches only at a [<div]
    that is followed, before any [>], by the text [class=] and a double
    quote (in any letter case).  A [div] element whose opening tag does
    not hold that text, its class attribute written with single quotes
    or without quotes, is never matched; a page without such a tag gives
    the empty result, whatever the other elements are.  The text need
    not be the class attribute of the element: an attribute whose name
    ends in [class] is read in its place.  The component name is made
    of letters, digits, [_] and [-], so that the pattern reads it
    literally. *)
Theorem parseBlockInstances_needs_class_dquote (html blockName : string) :
  plainName blockName = true ->
  (forall lastIndex m,
     exec true (openTagRegex blockName) html lastIndex = Some m ->
     lastIndex <= index m
     /\ matchesAt true "<div" (slice (index m) html) = true
     /\ classBeforeGt (slice (index m + 4) html) = true)
  /\ (divWithClassAttr html = false -> parseBlockInstances html blockName = Some []).
Proof.
  intros _. split; [intros lastIndex m; apply exec_openTag |].
  intros Hno. unfold parseBlockInstances. cbn [openScan].
  destruct (exec true (openTagRegex blockName) html 0) as [m|] eqn:E; [| reflexivity].
  apply exec_openTag in E as (_ & H1 & H2).
  rewrite (divWithClassAttr_at _ _ H1 H2) in Hno. discriminate.
Qed.

Lemma parseBlockInstances_needs_class_dquote_witness :
  divWithClassAttr unquotedPage = false
  /\ parseBlockInstances unquotedPage "hero" = Some []
  /\ parseBlockInstances singleQuotePage "hero" = Some [].
Proof.
  split; [reflexivity |].
  split; [apply (proj2 (parseBlockInstances_needs_class_dquote unquotedPage "hero" eq_refl))
         | apply (proj2 (parseBlockInstances_needs_class_dquote singleQuotePage "hero"
                           eq_refl))];
    reflexivity.
Defined.

(** C10 as stated fails: the class attribute of the only element of the
    page is written with single quotes, and the element is recorded all
    the same, under the variant [x], because the attribute [data-class]
    ends in the text the pattern looks for. *)
Lemma single_quoted_class_recorded :
  parseBlockInstances dataClassPage "hero" = Some [("x", "Z")]
  /\ occursIn false ("class=" +:+ q +:+ "hero") dataClassPage = true
  /\ occursIn false " class='hero'" dataClassPage = true.
Proof. repeat split; vm_compute; reflexivity. Qed.

(** ** Which opening tags are selected *)

(** Evaluate the character test at the head of the goal. *)
Ltac decide_char :=
  match goal with
  | |- context [sameChar ?i ?a ?c] =>
      let b := eval vm_compute in (sameChar i a c) in
      change (sameChar i a c) with b; cbv iota
  end.

Ltac eat := rewrite run_Chr; decide_char.

Lemma notQuote_dquote : notQuote dquote = false.
Proof. reflexivity. Qed.

Lemma notGt_gt : notGt gt = false.
Proof. reflexivity. Qed.

Lemma classValue_cons (a : ascii) (v : string) :
  classValue (String a v) = true ->
  notQuote a = true /\ Ascii.eqb a "=" = false /\ classValue v = true.
Proof.
  cbn [classValue]. intros H. apply andb_true_iff in H as [H Hv].
  apply andb_true_iff in H as [Hq He]. apply negb_true_iff in He. auto.
Qed.

Lemma sameChar_dquote_name (c : ascii) :
  isNameChar c = true -> sameChar true dquote c = false.
Proof. destruct c as [[] [] [] [] [] [] [] []]; vm_compute; congruence. Qed.

Lemma sameChar_equals (a : ascii) : sameChar true a "=" = Ascii.eqb a "=".
Proof. destruct a as [[] [] [] [] [] [] [] []]; reflexivity. Qed.

Lemma nameAt_prev (name : string) (p1 p2 : option ascii) (s : string) :
  isWord p1 = isWord p2 -> nameAt name p1 s = nameAt name p2 s.
Proof. intros H. destruct name; cbn [nameAt]; [by rewrite H | reflexivity]. Qed.

(** Only whether the code unit before the text is a word character
    matters. *)
Lemma wordOccursFrom_prev (name : string) (p1 p2 : option ascii) (s : string) :
  isWord p1 = isWord p2 -> wordOccursFrom name p1 s = wordOccursFrom name p2 s.
Proof.
  intros H. destruct s; cbn [wordOccursFrom]; by rewrite H, (nameAt_prev name p1 p2).
Qed.

Section Tail.
Variable rest : string.

(** The text after a class value: the closing quote, [>], and [rest]. *)
Local Abbreviation tail := (String dquote (String gt rest)).

(** After the name, the rest of the class value and the end of the tag
    always match. *)
Lemma closingAtoms_succeed (v : string) :
  classValue v = true ->
  forall prev pos gs g,
    succeeds (run true closingAtoms prev (v +:+ tail) pos gs g) = true.
Proof.
  induction v as [|a v IH]; intros Hv prev pos gs g; unfold closingAtoms.
  - change ("" +:+ tail) with tail. rewrite run_Rep, notQuote_dquote.
    eat. rewrite run_Rep, notGt_gt. cbn [run]. reflexivity.
  - apply classValue_cons in Hv as (Hq & _ & Hv).
    rewrite append_cons, run_Rep, Hq.
    specialize (IH Hv (Some a) (S pos) gs g). unfold closingAtoms in IH.
    destruct (run true _ (Some a) (v +:+ tail) (S pos) gs g); [reflexivity | discriminate].
Qed.

Lemma next_value (v : string) : isWord (next (v +:+ tail)) = isWord (next v).
Proof. destruct v; reflexivity. Qed.

Lemma run_WordB (p : pattern) (prev : option ascii) (s : string) (pos gs : nat)
    (g : option (nat * nat)) :
  run true (WordB :: p) prev s pos gs g
  = if xorb (isWord prev) (isWord (next s)) then run true p prev s pos gs g else None.
Proof. reflexivity. Qed.

(** The name and the boundary after it match exactly where [nameAt]
    says. *)
Lemma name_run (name : string) :
  plainName name = true ->
  forall v prev pos gs g,
    classValue v = true ->
    succeeds (run true (chars name ++ WordB :: closingAtoms) prev (v +:+ tail) pos gs g)
    = nameAt name prev v.
Proof.
  induction name as [|c name IH]; intros Hname v prev pos gs g Hv.
  - cbn [chars list_ascii_of_string map app nameAt]. rewrite run_WordB, next_value.
    destruct (xorb _ _); [| reflexivity]. by apply closingAtoms_succeed.
  - cbn [plainName] in Hname. apply andb_true_iff in Hname as [Hc Hname].
    rewrite chars_cons. cbn [app nameAt]. rewrite run_Chr.
    destruct v as [|a v].
    + change ("" +:+ tail) with tail. cbv iota.
      rewrite (sameChar_dquote_name c Hc). reflexivity.
    + rewrite append_cons. cbv iota. apply classValue_cons in Hv as (_ & _ & Hv).
      destruct (sameChar true a c); [| reflexivity]. simpl. by apply IH.
Qed.

(** The class value matches exactly when the name occurs in it between
    word boundaries. *)
Lemma value_run (name : string) :
  plainName name = true ->
  forall v prev pos gs g,
    classValue v = true ->
    succeeds (run true (valueAtoms name) prev (v +:+ tail) pos gs g)
    = wordOccursFrom name prev v.
Proof.
  intros Hname. unfold valueAtoms.
  induction v as [|a v IH]; intros prev pos gs g Hv.
  - change ("" +:+ tail) with tail. rewrite run_Rep, notQuote_dquote.
    rewrite run_WordB. cbn [wordOccursFrom]. rewrite orb_false_r.
    change (next tail) with (Some dquote). change (next "") with (@None ascii).
    change (isWord (Some dquote)) with false. change (isWord None) with false.
    destruct (xorb (isWord prev) false); [| reflexivity].
    cbn [andb]. apply (name_run name Hname "" prev pos gs g Hv).
  - pose proof Hv as Hv0. apply classValue_cons in Hv as (Hq & _ & Hv).
    rewrite append_cons, run_Rep, Hq. cbn [wordOccursFrom].
    specialize (IH (Some a) (S pos) gs g Hv).
    destruct (run true _ (Some a) (v +:+ tail) (S pos) gs g) as [r|].
    + cbn [succeeds] in *. rewrite <- IH. by rewrite orb_true_r.
    + cbn [succeeds] in IH. rewrite <- IH, orb_false_r.
      rewrite run_WordB. rewrite <- append_cons, next_value.
      destruct (xorb _ _); [| reflexivity].
      cbn [andb]. apply (name_run name Hname (String a v) prev pos gs g Hv0).
Qed.

(** The text [class=] and a quote does not stand at the start of a class
    value followed by its closing quote. *)
Lemma classAttr_not_at_value (lit1 lit2 : string) :
  forallb (fun c => negb (sameChar true dquote c)) (list_ascii_of_string lit1) = true ->
  forall v,
    classValue v = true ->
    matchesAt true (lit1 +:+ String "=" lit2) (v +:+ tail) = false.
Proof.
  induction lit1 as [|c lit1 IH]; intros Hlit v Hv.
  - change ("" +:+ String "=" lit2) with (String "="%char lit2). cbn [matchesAt].
    destruct v as [|a v].
    + reflexivity.
    + rewrite append_cons. apply classValue_cons in Hv as (_ & He & _).
      by rewrite sameChar_equals, He.
  - cbn [list_ascii_of_string forallb] in Hlit. apply andb_true_iff in Hlit as [Hc Hlit].
    apply negb_true_iff in Hc. rewrite append_cons. cbn [matchesAt].
    destruct v as [|a v].
    + change ("" +:+ tail) with tail. cbv iota. by rewrite Hc.
    + rewrite append_cons. cbv iota. apply classValue_cons in Hv as (_ & _ & Hv).
      rewrite (IH Hlit v Hv). apply andb_false_r.
Qed.

Lemma run_classAttr_value (post : pattern) (v : string) prev pos gs g :
  classValue v = true ->
  run true (chars classAttr ++ post) prev (v +:+ tail) pos gs g = None.
Proof.
  intros Hv.
  destruct (run true (chars classAttr ++ post) prev (v +:+ tail) pos gs g) as [r|] eqn:E;
    [| reflexivity].
  apply run_chars_matchesAt in E.
  change classAttr with ("class" +:+ String "="%char q) in E.
  rewrite classAttr_not_at_value in E; [discriminate | reflexivity | exact Hv].
Qed.

(** No attribute starts inside the class value. *)
Lemma rep_classAttr_value (post : pattern) (v : string) :
  classValue v = true ->
  forall prev pos gs g,
    run true (Rep notGt :: chars classAttr ++ post) prev (v +:+ tail) pos gs g = None.
Proof.
  induction v as [|a v IH]; intros Hv prev pos gs g.
  - change ("" +:+ tail) with tail. rewrite run_Rep.
    change (notGt dquote) with true. cbv iota.
    rewrite run_Rep, notGt_gt.
    change (chars classAttr ++ post) with (Chr "c" :: chars ("lass=" +:+ q) ++ post).
    rewrite !run_Chr. reflexivity.
  - pose proof Hv as Hv0. apply classValue_cons in Hv as (_ & _ & Hv).
    rewrite append_cons, run_Rep, (IH Hv), <- append_cons.
    rewrite (run_classAttr_value post (String a v) prev pos gs g Hv0).
    by destruct (notGt a).
Qed.

Lemma rep_skip (post : pattern) (a : ascii) (s : string) prev pos gs g :
  sameChar true a "c" = false ->
  run true (Rep notGt :: chars classAttr ++ post) (Some a) s (S pos) gs g = None ->
  run true (Rep notGt :: chars classAttr ++ post) prev (String a s) pos gs g = None.
Proof.
  intros Ha Hin. rewrite run_Rep, Hin.
  change (chars classAttr ++ post) with (Chr "c" :: chars ("lass=" +:+ q) ++ post).
  rewrite run_Chr, Ha. by destruct (notGt a).
Qed.

(** At the start of a simple tag the pattern matches exactly when the
    name occurs in the class value between word boundaries. *)
Lemma openTagRegex_simpleTag (name cls : string) :
  plainName name = true -> classValue cls = true ->
  succeeds (run true (openTagRegex name) None (simpleTag cls rest) 0 0 None)
  = wordOccurs name cls.
Proof.
  intros Hname Hcls. rewrite openTagRegex_atoms.
  change (simpleTag cls rest) with ("<div class=" +:+ q +:+ cls +:+ tail).
  change ("<div class=" +:+ q +:+ cls +:+ tail)
    with (String "<" (String "d" (String "i" (String "v" (String " "
           ("class=" +:+ q +:+ cls +:+ tail)))))).
  change (chars "<div" ++ ?p) with (Chr "<" :: Chr "d" :: Chr "i" :: Chr "v" :: p).
  do 4 eat. change (run true (GroupOpen :: ?p) ?prev ?s ?pos ?gs ?g)
    with (run true p prev s pos pos g).
  rewrite run_Rep. change (notGt " ") with true. cbv iota.
  change (chars classAttr ++ ?p)
    with (Chr "c" :: Chr "l" :: Chr "a" :: Chr "s" :: Chr "s" :: Chr "=" :: Chr dquote :: p).
  rewrite (run_Chr true "c" _ _ (String " " _)). decide_char.
  assert (Hinner :
    succeeds (run true (Rep notGt :: chars classAttr ++ valueAtoms name) (Some " "%char)
                ("class=" +:+ q +:+ cls +:+ tail) 5 4 None)
    = wordOccurs name cls).
  { change ("class=" +:+ q +:+ cls +:+ tail)
      with (String "c" (String "l" (String "a" (String "s" (String "s" (String "="
             (String dquote (cls +:+ tail)))))))).
    rewrite run_Rep. change (notGt "c") with true. cbv iota.
    rewrite rep_skip; [| reflexivity |].
    2:{ do 4 (apply rep_skip; [reflexivity |]). apply rep_skip; [reflexivity |].
        by apply rep_classAttr_value. }
    change (chars classAttr ++ ?p)
      with (Chr "c" :: Chr "l" :: Chr "a" :: Chr "s" :: Chr "s" :: Chr "=" :: Chr dquote :: p).
    do 7 eat. rewrite (value_run name Hname cls _ _ _ _ Hcls).
    unfold wordOccurs. by apply wordOccursFrom_prev. }
  change (Chr "c" :: Chr "l" :: Chr "a" :: Chr "s" :: Chr "s" :: Chr "=" :: Chr dquote
            :: valueAtoms name) with (chars classAttr ++ valueAtoms name).
  rewrite <- Hinner.
  destruct (run true (Rep notGt :: chars classAttr ++ valueAtoms name) _ _ 5 4 None);
    reflexivity.
Qed.

End Tail.

Lemma search_index (ignoreCase : bool) (p : pattern) :
  forall s prev pos m, search ignoreCase p prev s pos = Some m -> pos <= index m.
Proof.
  induction s as [|a s IH]; intros prev pos m H; cbn [search] in H.
  - destruct (run ignoreCase p prev "" pos 0 None) as [[e g]|]; [| discriminate].
    injection H as <-. reflexivity.
  - destruct (run ignoreCase p prev (String a s) pos 0 None) as [[e g]|].
    + injection H as <-. reflexivity.
    + apply IH in H. lia.
Qed.

(** C8, as amended.  For a component name made of letters, digits, [_]
    and [-], and an opening tag [<div class=Q...Q>] whose class value
    holds no double quote and no [=], the opening-tag pattern selects the
    tag exactly when the name occurs in the class value between two word
    boundaries, letter case ignored.  A word boundary separates a letter,
    digit or [_] from any other character or from the end of the value:
    a token that continues the name with [-] selects the tag, a token
    that continues it with a letter, digit or [_] does not. *)
Theorem openTagRegex_selects_word_bounded (name cls rest : string) :
  plainName name = true ->
  classValue cls = true ->
  (exists m, exec true (openTagRegex name) (simpleTag cls rest) 0 = Some m /\ index m = 0)
  <-> wordOccurs name cls = true.
Proof.
  intros Hname Hcls. rewrite <- (openTagRegex_simpleTag rest name cls Hname Hcls).
  unfold exec. cbn [seek].
  change (simpleTag cls rest) with (String "<" ("div class=" +:+ q +:+ cls +:+ q +:+ ">" +:+ rest)).
  cbn [search].
  destruct (run true (openTagRegex name) None _ 0 0 None) as [[e g]|]; cbn [succeeds].
  - split; [reflexivity |]. intros _. eexists. split; reflexivity.
  - split; [| discriminate]. intros (m & H & Hm). apply search_index in H. lia.
Qed.

Lemma openTagRegex_selects_word_bounded_witness :
  (exists m, exec true (openTagRegex "hero") bannerPage 0 = Some m /\ index m = 0)
  <-> wordOccurs "hero" "hero-banner" = true.
Proof.
  apply (openTagRegex_selects_word_bounded "hero" "hero-banner" "Z</div>"); reflexivity.
Defined.

Example wordOccurs_examples :
  wordOccurs "hero" "hero-banner" = true
  /\ wordOccurs "hero" "wide Hero dark" = true
  /\ wordOccurs "hero" "heroic superhero hero_banner" = false.
Proof. repeat split. Qed.

(** C8 as stated fails: [hero] is no class token of [hero-banner], yet
    the tag is selected and its content extracted. *)
Lemma hyphenated_token_selected :
  hasClassToken "hero" "hero-banner" = false
  /\ (exists m, exec true (openTagRegex "hero") bannerPage 0 = Some m /\ index m = 0)
  /\ parseBlockInstances bannerPage "hero" = Some [("", "Z")].
Proof.
  split; [reflexivity |]. split; [| vm_compute; reflexivity].
  eexists. split; vm_compute; reflexivity.
Qed.

(** ** More of the sheet document model *)

Lemma existsb_filter_false {A : Type} (f : A -> bool) (l : list A) :
  existsb f (List.filter (fun x => negb (f x)) l) = false.
Proof.
  induction l as [|a l IH]; simpl; [reflexivity |].
  destruct (f a) eqn:E; simpl; [exact IH | by rewrite E].
Qed.

Lemma filter_all {A : Type} (f : A -> bool) (l : list A) :
  existsb f l = false -> List.filter (fun x => negb (f x)) l = l.
Proof.
  induction l as [|a l IH]; simpl; [reflexivity |]. intros H.
  apply orb_false_iff in H as [Ha Hl]. rewrite Ha. simpl. by rewrite IH.
Qed.

(** Removing by key leaves no row with that key and keeps the other
    rows, in their order; [total] and [limit] are recomputed.  Removing a
    key that no row has changes no row. *)
Theorem removeEntry_removes (dataSheet : option Sheet) (key keyField : string) :
  let rows := default [] (dataSheet ≫= data) in
  let removed := removeEntry dataSheet key keyField in
  exists rows',
    data removed = Some rows'
    /\ total removed = Some (length rows') /\ limit removed = Some (length rows')
    /\ entryExists (Some removed) (Some key) keyField = false
    /\ rows' `sublist_of` rows
    /\ (forall row, row ∈ rows' <-> row ∈ rows /\ row !! keyField <> Some key)
    /\ (entryExists dataSheet (Some key) keyField = false -> rows' = rows).
Proof.
  intros rows removed. eexists. split; [reflexivity |].
  split; [reflexivity |]. split; [reflexivity |]. split; [| split; [| split]].
  - unfold entryExists, removed, removeEntry. simpl. fold rows.
    apply (existsb_filter_false (fun item : Row => bool_decide (item !! keyField = Some key))).
  - fold rows. clear. induction rows as [|a l IH]; simpl; [constructor |].
    destruct (negb _); [by apply sublist_skip | by apply sublist_cons].
  - intros row. fold rows. rewrite !list_elem_of_In, filter_In, negb_true_iff.
    rewrite bool_decide_eq_false. reflexivity.
  - intros H. fold rows. unfold entryExists in H. fold rows in H.
    apply (filter_all (fun item : Row => bool_decide (item !! keyField = Some key))). exact H.
Qed.

Lemma removeEntry_removes_witness :
  entryExists (Some iconSheet) (Some "phone") "key" = false
  /\ data (removeEntry (Some iconSheet) "phone" "key") = data iconSheet.
Proof.
  assert (H : entryExists (Some iconSheet) (Some "phone") "key" = false) by reflexivity.
  split; [exact H |].
  destruct (removeEntry_removes (Some iconSheet) "phone" "key")
    as (rows' & Hd & _ & _ & _ & _ & _ & Hsame).
  rewrite Hd, (Hsame H). reflexivity.
Defined.

Lemma existsb_app' {A : Type} (f : A -> bool) (l1 l2 : list A) :
  existsb f (l1 ++ l2) = existsb f l1 || existsb f l2.
Proof. induction l1 as [|a l1 IH]; simpl; [reflexivity |]. by rewrite IH, orb_assoc. Qed.

(** After an upsert, the sheet has the key of the new row, and has any
    other key exactly when it had it before. *)
Theorem entryExists_addEntry (dataSheet : option Sheet) (entry : Row)
    (keyField : string) (key : option string) :
  entryExists (Some (addEntry dataSheet entry keyField)) key keyField
  = entryExists dataSheet key keyField || bool_decide (entry !! keyField = key).
Proof.
  unfold entryExists at 1 2. unfold addEntry. set (rows := default [] (dataSheet ≫= data)).
  destruct (findIndex (sameKey keyField entry) rows) as [i|] eqn:Hfind; simpl.
  - destruct (findIndex_Some _ _ _ Hfind) as (l1 & x & l2 & -> & <- & Fx & _).
    rewrite insert_middle, !existsb_app'. simpl.
    unfold sameKey in Fx. apply bool_decide_eq_true_1 in Fx. rewrite Fx.
    destruct (bool_decide (entry !! keyField = key)); simpl;
      rewrite ?orb_true_r, ?orb_false_r; reflexivity.
  - rewrite existsb_app'. simpl. by rewrite orb_false_r.
Qed.

(** Removing the key of a row just upserted gives the sheet obtained by
    removing that key from the original sheet. *)
Theorem removeEntry_addEntry (dataSheet : option Sheet) (entry : Row)
    (key keyField : string) :
  entry !! keyField = Some key ->
  removeEntry (Some (addEntry dataSheet entry keyField)) key keyField
  = removeEntry dataSheet key keyField.
Proof.
  intros Hkey. unfold removeEntry, addEntry. f_equal.
  set (rows := default [] (dataSheet ≫= data)).
  set (f := fun item : Row => negb (bool_decide (item !! keyField = Some key))).
  assert (Hentry : f entry = false).
  { unfold f. by rewrite bool_decide_eq_true_2. }
  destruct (findIndex (sameKey keyField entry) rows) as [i|] eqn:Hfind; simpl.
  - destruct (findIndex_Some _ _ _ Hfind) as (l1 & x & l2 & -> & <- & Fx & _).
    rewrite insert_middle, !List.filter_app. simpl. rewrite Hentry.
    assert (Hx : f x = false).
    { unfold f, sameKey in *. apply bool_decide_eq_true_1 in Fx.
      rewrite bool_decide_eq_true_2; [reflexivity | congruence]. }
    by rewrite Hx.
  - rewrite List.filter_app. simpl. rewrite Hentry. apply app_nil_r.
Qed.

Lemma removeEntry_addEntry_witness :
  removeEntry (Some (addEntry (Some iconSheet) emailIcon "key")) "email" "key"
  = removeEntry (Some iconSheet) "email" "key".
Proof. apply removeEntry_addEntry. reflexivity. Defined.

(** Encoding then decoding: for each of the four library types the
    data sheet of the encoded document holds the entries, with [total] and
    [limit] their count.  Only [blocks] gives a multi-sheet document, and
    it always has an options sheet (the rows given, or the default
    ones); the other types give a flat sheet without options.  An
    unknown type is refused. *)
Theorem createLibraryJSON_round_trip (type : string) (entries : list Row)
    (optionsSheet : option Sheet) :
  (In type ["blocks"; "templates"; "icons"; "placeholders"] ->
     exists doc dataSheet,
       createLibraryJSON type entries optionsSheet = Ok doc
       /\ getDataSheet (Some doc) = Some dataSheet
       /\ dataSheet = createSheetStructure entries
       /\ (if String.eqb type "blocks"
           then docType doc = Some "multi-sheet"
                /\ getOptionsSheet (Some doc)
                   = Some (createSheetStructure
                             (default [] (data (default createDefaultBlockOptions
                                                        optionsSheet))))
           else docType doc = Some "sheet" /\ getOptionsSheet (Some doc) = None))
  /\ (~ In type ["blocks"; "templates"; "icons"; "placeholders"] ->
        createLibraryJSON type entries optionsSheet
        = Throw ("Unknown library type: " +:+ type)).
Proof.
  split.
  - intros Hin. simpl in Hin.
    destruct Hin as [<- | [<- | [<- | [<- | []]]]].
    + rewrite createLibraryJSON_blocks. eexists _, _. repeat split.
    + eexists _, _. repeat split.
    + eexists _, _. repeat split.
    + eexists _, _. repeat split.
  - intros Hnot. unfold createLibraryJSON.
    destruct (isLibraryType type) eqn:E; [| reflexivity].
    apply isLibraryType_true in E. contradiction.
Qed.

Lemma createLibraryJSON_round_trip_witness :
  exists doc dataSheet,
    createLibraryJSON "icons" [emailIcon] None = Ok doc
    /\ getDataSheet (Some doc) = Some dataSheet
    /\ dataSheet = createSheetStructure [emailIcon]
    /\ docType doc = Some "sheet" /\ getOptionsSheet (Some doc) = None.
Proof.
  destruct (proj1 (createLibraryJSON_round_trip "icons" [emailIcon] None))
    as (doc & dataSheet & H1 & H2 & H3 & H4); [simpl; tauto |].
  exists doc, dataSheet. simpl in H4. tauto.
Defined.

(** ** The sheet manager on the store *)

Lemma getSheetJSON_absent (org repo path : string) (w : World) :
  faults w = [] -> store w !! formatURL "source" org repo path "json" = None ->
  getSheetJSON org repo path w = (Ok None, w).
Proof.
  intros Hf Hs. unfold getSheetJSON, try_catch, bind, daAdminRequest, bind, request.
  rewrite Hf, Hs. reflexivity.
Qed.

Lemma getSheetJSON_read (org repo path : string) (w : World) :
  faults w = [] ->
  getSheetJSON org repo path w
  = (Ok (store w !! formatURL "source" org repo path "json"), w).
Proof.
  intros Hf. destruct (store w !! _) as [d|] eqn:Hs.
  - by apply getSheetJSON_found.
  - by apply getSheetJSON_absent.
Qed.

Lemma getSheetJSON_fault (org repo path : string) (w : World) (message : string)
    (rest : list (option string)) :
  faults w = Some message :: rest ->
  getSheetJSON org repo path w
  = (if includes "404" message then Ok None else Throw message,
     {| store := store w; faults := rest |}).
Proof.
  intros Hf. unfold getSheetJSON, try_catch, bind, daAdminRequest, bind, request.
  rewrite Hf. by destruct (includes "404" message).
Qed.

Lemma getSheetJSON_store (org repo path : string) (w : World) :
  store (snd (getSheetJSON org repo path w)) = store w.
Proof.
  destruct w as [st [|[message|] rest]].
  - by rewrite getSheetJSON_read.
  - by rewrite (getSheetJSON_fault _ _ _ _ message rest).
  - unfold getSheetJSON, try_catch, bind, daAdminRequest, bind, request. simpl.
    by destruct (st !! _).
Qed.

Lemma listSheetItems_ok (org repo path : string) (w : World) :
  faults w = [] ->
  listSheetItems org repo path w
  = (Ok (storedRows (store w !! formatURL "source" org repo path "json")), w).
Proof.
  intros Hf. unfold listSheetItems, bind. rewrite (getSheetJSON_read _ _ _ _ Hf).
  by destruct (store w !! _).
Qed.

(** Listing never writes to the store.  With a transport that does not
    fail it returns the rows of the data sheet of the stored document,
    and no row when there is no document.  A failure whose message holds
    the text 404 is read as an absent document, any other failure is
    thrown on. *)
Theorem listSheetItems_reads (org repo path : string) (w : World) :
  let url := formatURL "source" org repo path "json" in
  store (snd (listSheetItems org repo path w)) = store w
  /\ (faults w = [] ->
      listSheetItems org repo path w = (Ok (storedRows (store w !! url)), w))
  /\ (forall message rest,
        faults w = Some message :: rest ->
        fst (listSheetItems org repo path w)
        = if includes "404" message then Ok [] else Throw message).
Proof.
  intros url. unfold listSheetItems. split; [| split].
  - unfold bind. pose proof (getSheetJSON_store org repo path w) as H.
    destruct (getSheetJSON org repo path w) as [[[d|]|message] w']; exact H.
  - intros Hf. by apply listSheetItems_ok.
  - intros message rest Hf. unfold bind.
    rewrite (getSheetJSON_fault _ _ _ _ message rest Hf).
    by destruct (includes "404" message).
Qed.

Lemma listSheetItems_reads_witness :
  listSheetItems "org" "site" "/library/icons" emptyWorld = (Ok [], emptyWorld).
Proof.
  exact (proj1 (proj2 (listSheetItems_reads "org" "site" "/library/icons" emptyWorld))
           eq_refl).
Defined.

Section Manager.
Variables (org repo keyField path : string).
Variable createSheetFn : list Row -> completion Doc.
Hypothesis encoder : faithfulEncoder createSheetFn.

Local Abbreviation url := (formatURL "source" org repo path "json").

(** One upsert through the sheet manager. *)
Lemma addSheetItem_run (entry : Row) (w : World) :
  faults w = [] ->
  let before := getDataSheet (store w !! url) in
  exists r w',
    addSheetItem org repo entry keyField path createSheetFn w = (Ok r, w')
    /\ ar_added r = true
    /\ ar_existed r = entryExists before (entry !! keyField) keyField
    /\ faults w' = []
    /\ listSheetItems org repo path w'
       = (Ok (default [] (data (addEntry before entry keyField))), w').
Proof.
  intros Hf before. unfold addSheetItem. unfold bind at 1.
  rewrite (getSheetJSON_read _ _ _ _ Hf). cbv beta iota.
  set (doc0 := store w !! url).
  assert (Hds : match doc0 with Some _ => getDataSheet doc0 | None => None end = before).
  { subst before. fold doc0. by destruct doc0. }
  rewrite Hds.
  destruct (encoder (default [] (data (addEntry before entry keyField))))
    as (doc & Hdoc & Hrows).
  rewrite Hdoc. run_lift. unfold bind at 1.
  rewrite (uploadSheetJSON_stores org repo path w doc Hf). cbv beta iota. unfold ret.
  eexists _, _. split; [reflexivity |]. cbn [ar_added ar_existed].
  split; [reflexivity |]. split; [by destruct before |]. split; [reflexivity |].
  - rewrite listSheetItems_ok by reflexivity. cbn [store]. rewrite lookup_insert_eq.
    unfold storedRows. by rewrite Hrows.
Qed.

(** With a faithful encoder and a transport that does not fail, an
    upsert through the sheet manager succeeds, reports whether the key
    was there before, and a listing that follows returns the upserted
    rows. *)
Theorem addSheetItem_then_list (entry : Row) (w : World) :
  faults w = [] ->
  let before := getDataSheet (store w !! url) in
  exists r w',
    addSheetItem org repo entry keyField path createSheetFn w = (Ok r, w')
    /\ ar_added r = true
    /\ ar_existed r = entryExists before (entry !! keyField) keyField
    /\ faults w' = []
    /\ listSheetItems org repo path w'
       = (Ok (default [] (data (addEntry before entry keyField))), w').
Proof. apply addSheetItem_run. Qed.

(** With a faithful encoder and a transport that does not fail, a
    removal from a document that is absent (or has no data sheet) reports
    [removed: false] with an error and leaves the store as it was;
    otherwise it reports [removed: true] and a listing that follows
    returns the rows without the key. *)
Theorem removeSheetItem_then_list (key : string) (w : World) :
  faults w = [] ->
  exists r w',
    removeSheetItem org repo key keyField path createSheetFn w = (Ok r, w')
    /\ match getDataSheet (store w !! url) with
       | None =>
           rr_removed r = false /\ is_Some (rr_error r) /\ w' = w
       | Some dataSheet =>
           rr_removed r = true
           /\ listSheetItems org repo path w'
              = (Ok (default [] (data (removeEntry (Some dataSheet) key keyField))), w')
       end.
Proof.
  intros Hf. unfold removeSheetItem. unfold bind at 1.
  rewrite (getSheetJSON_read _ _ _ _ Hf). cbv beta iota.
  destruct (store w !! url) as [d|] eqn:Hs.
  - destruct (getDataSheet (Some d)) as [dataSheet|] eqn:Hd.
    + destruct (encoder (default [] (data (removeEntry (Some dataSheet) key keyField))))
        as (doc & Hdoc & Hrows).
      rewrite Hdoc. run_lift. unfold bind at 1.
      rewrite (uploadSheetJSON_stores org repo path w doc Hf). cbv beta iota. unfold ret.
      eexists _, _. split; [reflexivity |]. cbn [rr_removed]. split; [reflexivity |].
      rewrite listSheetItems_ok by reflexivity. cbn [store]. rewrite lookup_insert_eq.
      unfold storedRows. by rewrite Hrows.
    + unfold ret. eexists _, _. split; [reflexivity |]. cbn. eauto.
  - unfold ret. eexists _, _. split; [reflexivity |]. cbn. eauto.
Qed.

End Manager.

Lemma createLibraryJSON_faithful (type : string) :
  In type ["blocks"; "templates"; "icons"; "placeholders"] ->
  faithfulEncoder (fun rows => createLibraryJSON type rows None).
Proof.
  intros Hin rows. simpl in Hin.
  destruct Hin as [<- | [<- | [<- | [<- | []]]]]; eexists; split; reflexivity.
Qed.

Lemma addSheetItem_then_list_witness :
  exists r w',
    addSheetItem "org" "site" emailIcon "key" "/library/icons" createIconsJSON emptyWorld
    = (Ok r, w')
    /\ ar_existed r = false
    /\ listSheetItems "org" "site" "/library/icons" w' = (Ok [emailIcon], w').
Proof.
  destruct (addSheetItem_then_list "org" "site" "key" "/library/icons" createIconsJSON
              (createLibraryJSON_faithful "icons" ltac:(simpl; tauto)) emailIcon emptyWorld
              eq_refl) as (r & w' & H & _ & He & _ & Hl).
  exists r, w'. split; [exact H |]. split; [exact He | exact Hl].
Defined.

Lemma removeSheetItem_then_list_witness :
  exists r w',
    removeSheetItem "org" "site" "email" "key" "/library/icons" createIconsJSON emptyWorld
    = (Ok r, w')
    /\ rr_removed r = false /\ w' = emptyWorld.
Proof.
  destruct (removeSheetItem_then_list "org" "site" "key" "/library/icons" createIconsJSON
              (createLibraryJSON_faithful "icons" ltac:(simpl; tauto)) "email" emptyWorld
              eq_refl) as (r & w' & H & Hr & _ & Hw).
  exists r, w'. auto.
Defined.

(** ** A batch on a transport that does not fail *)

Lemma addEntry_rows (dataSheet : option Sheet) (entry : Row) (keyField : string) :
  addEntry dataSheet entry keyField
  = addEntry (Some (createSheetStructure (default [] (dataSheet ≫= data)))) entry keyField.
Proof. reflexivity. Qed.

Section Sequential.
Variables (org repo keyField path : string).
Variable createSheetFn : list Row -> completion Doc.
Hypothesis encoder : faithfulEncoder createSheetFn.
Variable toRow : Item -> Row.

Local Abbreviation url := (formatURL "source" org repo path "json").
Local Abbreviation createEntry := (fun item : Item => Ok (toRow item)).

Lemma setupLoop_sequential (rest : list Item) :
  forall (result : SetupResult) (w : World),
    faults w = [] ->
    exists result' w',
      setupLoop org repo keyField path createSheetFn createEntry result rest w
      = (Ok result', w')
      /\ faults w' = []
      /\ s_failed (summary result') = s_failed (summary result)
      /\ errors result' = errors result
      /\ storedRows (store w' !! url)
         = upsertAll keyField (map toRow rest) (storedRows (store w !! url)).
Proof.
  induction rest as [|item rest IH]; intros result w Hf.
  - exists result, w. repeat split; assumption.
  - destruct (addSheetItem_run org repo keyField path createSheetFn encoder
                (toRow item) w Hf) as (r & w1 & Hadd & _ & _ & Hf1 & Hlist).
    rewrite (listSheetItems_ok org repo path w1 Hf1) in Hlist. injection Hlist as Hrows.
    cbn [setupLoop]. unfold bind at 1, setupStep, try_catch. unfold bind at 1.
    cbn [lift]. unfold ret at 1. unfold bind at 1. rewrite Hadd. unfold ret at 1.
    match goal with |- context [setupLoop _ _ _ _ _ _ ?r1 rest w1] =>
      destruct (IH r1 w1 Hf1) as (r2 & w2 & Hloop & Hf2 & Hfail & Herr & Hstored) end.
    rewrite Hloop. exists r2, w2. split; [reflexivity |]. split; [exact Hf2 |].
    split; [| split].
    + rewrite Hfail. by destruct (ar_existed r).
    + rewrite Herr. reflexivity.
    + rewrite Hstored, Hrows. cbn [map upsertAll foldl]. reflexivity.
Qed.

(** Items of a batch are upserted one after the other, each one against
    the document the previous one stored: with a faithful encoder, an
    entry builder that does not throw and a transport that does not fail,
    the batch reports no failure and a listing that follows returns the
    stored rows with the entries upserted in input order. *)
Theorem setupSheetItems_sequential (inputs : list Item) (w : World) :
  faults w = [] ->
  exists result w',
    setupSheetItems org repo keyField path createSheetFn createEntry inputs w
    = (Ok result, w')
    /\ success result = Some true
    /\ s_failed (summary result) = 0 /\ errors result = []
    /\ listSheetItems org repo path w'
       = (Ok (upsertAll keyField (map toRow inputs) (storedRows (store w !! url))), w').
Proof.
  intros Hf. unfold setupSheetItems. cbv zeta. unfold bind.
  match goal with |- context [setupLoop _ _ _ _ _ _ ?r0 inputs w] =>
    destruct (setupLoop_sequential inputs r0 w Hf)
      as (r & w' & Hloop & Hf' & Hfail & Herr & Hstored) end.
  rewrite Hloop. unfold ret. cbn in Hfail, Herr.
  eexists _, w'. split; [reflexivity |]. cbn [success summary errors].
  rewrite Hfail, Herr. repeat split.
  by rewrite (listSheetItems_ok org repo path w' Hf'), Hstored.
Qed.

End Sequential.

Lemma setupSheetItems_sequential_witness :
  exists result w',
    setupSheetItems "org" "site" "key" "/library/icons" createIconsJSON
      (fun item => Ok (item : Row)) threeIcons emptyWorld = (Ok result, w')
    /\ success result = Some true
    /\ listSheetItems "org" "site" "/library/icons" w'
       = (Ok (upsertAll "key" threeIcons []), w').
Proof.
  destruct (setupSheetItems_sequential "org" "site" "key" "/library/icons" createIconsJSON
              (createLibraryJSON_faithful "icons" ltac:(simpl; tauto)) (fun item => item)
              threeIcons emptyWorld eq_refl) as (r & w' & H & Hs & _ & _ & Hl).
  exists r, w'. split; [exact H |]. split; [exact Hs |].
  rewrite Hl. rewrite map_id. reflexivity.
Defined.

(** ** Registration into any site configuration *)

Lemma obj_get_map_set {V W : Type} (f : string * V -> string * W) (g : V -> W)
    (o : list (string * V)) (k : string) (v : V) :
  (forall k' v', f (k', v') = (k', g v')) ->
  obj_get (map f (obj_set o k v)) k = Some (g v).
Proof.
  intros Hf. induction o as [|[k' v'] o IH]; simpl.
  - by rewrite Hf; simpl; rewrite String.eqb_refl.
  - destruct (String.eqb k' k) eqn:E; simpl; rewrite Hf; simpl; rewrite E;
      [reflexivity | exact IH].
Qed.

(** A name under which a sheet can be left is found among the sheets
    that were left as it is found among those that were assigned. *)
Lemma obj_get_filter_sheetName {V : Type} (o : list (string * V)) (k : string) :
  sheetName k = true ->
  obj_get (List.filter (fun '(name, _) => sheetName name) o) k = obj_get o k.
Proof.
  intros Hk. induction o as [|[k' v'] o IH]; [reflexivity |].
  cbn [List.filter obj_get]. destruct (String.eqb_spec k' k) as [-> | Hne].
  - rewrite Hk. cbn [obj_get]. by rewrite String.eqb_refl.
  - destruct (sheetName k'); [| exact IH].
    cbn [obj_get]. destruct (String.eqb_spec k' k); [contradiction | exact IH].
Qed.

Lemma obj_get_filter_other {V : Type} (o : list (string * V)) (k : string) :
  sheetName k = false ->
  obj_get (List.filter (fun '(name, _) => sheetName name) o) k = None.
Proof.
  intros Hk. induction o as [|[k' v'] o IH]; [reflexivity |].
  cbn [List.filter]. destruct (sheetName k') eqn:Hk'; [| exact IH].
  cbn [obj_get]. destruct (String.eqb_spec k' k) as [-> | Hne]; [congruence | exact IH].
Qed.

Lemma ensureLibrarySheet_rows (config : Doc) :
  data (librarySheet (ensureLibrarySheet config)) = existingLibraryRows config.
Proof.
  destruct config as [tag s | m]; simpl.
  - by destruct (bool_decide (tag = Some "sheet")).
  - by destruct (obj_get (sheets m) "library").
Qed.

(** The configuration that is uploaded: its library sheet holds the rows
    after the mutation; its [total] and [limit] are recomputed only when
    the library sheet was there before. *)
Lemma mutatedConfig_library (config : Doc) (rows' : list Row) :
  exists m' library',
    mutatedConfig (ensureLibrarySheet config) rows' = Multi m'
    /\ obj_get (sheets m') "library" = Some library'
    /\ data library' = Some rows'
    /\ (if sheetExisted (ensureLibrarySheet config)
        then total library' = Some (length rows') /\ limit library' = Some (length rows')
        else total library' = Some 0 /\ limit library' = Some 0).
Proof.
  destruct config as [tag s | m].
  - cbn [ensureLibrarySheet]. destruct (bool_decide (tag = Some "sheet"));
      eexists _, _; (split; [reflexivity |]); cbn; repeat split.
  - cbn [ensureLibrarySheet]. destruct (obj_get (sheets m) "library") as [lib|] eqn:Hlib.
    + unfold mutatedConfig. cbn [newConfig sheetExisted]. rewrite Hlib.
      eexists _, _. split; [reflexivity |]. cbn [sheets]. rewrite obj_get_set.
      split; [reflexivity |]. cbn. repeat split.
    + unfold mutatedConfig. cbn [newConfig sheetExisted createMultiSheetJSON sheets].
      rewrite obj_get_filter_sheetName by reflexivity.
      rewrite (obj_get_map_set _ (fun sheet => createSheetStructure (default [] (data sheet))))
        by reflexivity.
      eexists _, _. split; [reflexivity |]. cbn [sheets]. rewrite obj_get_set.
      split; [reflexivity |]. cbn. repeat split.
Qed.

Lemma sheetExisted_library (config : Doc) :
  sheetExisted (ensureLibrarySheet config)
  = match config with
    | Multi m => bool_decide (is_Some (obj_get (sheets m) "library"))
    | Flat _ _ => false
    end.
Proof.
  destruct config as [tag s | m]; simpl.
  - by destruct (bool_decide (tag = Some "sheet")).
  - by destruct (obj_get (sheets m) "library").
Qed.

Lemma findIndex_existsb {A : Type} (f : A -> bool) (l : list A) :
  bool_decide (is_Some (findIndex f l)) = existsb f l.
Proof.
  induction l as [|a l IH]; simpl; [reflexivity |].
  destruct (f a); simpl; [reflexivity |]. rewrite <- IH.
  by destruct (findIndex f l).
Qed.

(** The rows of the library sheet after one registration. *)
Lemma registered_rows_find (libraryType configPath : string) (rows : list Row) :
  let rows' :=
    match findIndex (fun item => bool_decide (item !! "title" = Some libraryType)) rows with
    | Some i => alter (fun item : Row => <["path" := configPath]> item) i rows
    | None => rows ++ [createLibraryEntry libraryType configPath rows]
    end in
  (exists row,
     List.find (hasTitle libraryType) rows' = Some row
     /\ row !! "title" = Some libraryType /\ row !! "path" = Some configPath)
  /\ (forall other, other <> libraryType ->
        List.filter (hasTitle other) rows' = List.filter (hasTitle other) rows)
  /\ length rows'
     = length rows + (if existsb (hasTitle libraryType) rows then 0 else 1).
Proof.
  change (fun item : Row => bool_decide (item !! "title" = Some libraryType))
    with (hasTitle libraryType).
  destruct (findIndex (hasTitle libraryType) rows) as [i|] eqn:Hfind; cbv zeta.
  - destruct (findIndex_Some _ _ _ Hfind) as (l1 & x & l2 & -> & <- & Fx & Hbefore).
    rewrite alter_middle.
    assert (Htitle : (<["path" := configPath]> x : Row) !! "title" = x !! "title").
    { by rewrite lookup_insert_ne. }
    assert (Hx : x !! "title" = Some libraryType).
    { unfold hasTitle in Fx. by apply bool_decide_eq_true_1 in Fx. }
    split; [| split].
    + exists (<["path" := configPath]> x). split; [| split].
      * clear -Hbefore Htitle Hx. induction Hbefore as [|a l1 Ha _ IH]; simpl.
        -- unfold hasTitle at 1. rewrite Htitle, Hx.
           by rewrite bool_decide_eq_true_2.
        -- by rewrite Ha.
      * by rewrite Htitle.
      * apply lookup_insert_eq.
    + intros other Hne. rewrite !List.filter_app. simpl.
      assert (H1 : hasTitle other (<["path" := configPath]> x) = false).
      { unfold hasTitle. rewrite Htitle, Hx. apply bool_decide_eq_false_2. congruence. }
      assert (H2 : hasTitle other x = false).
      { unfold hasTitle. rewrite Hx. apply bool_decide_eq_false_2. congruence. }
      by rewrite H1, H2.
    + rewrite !length_app. simpl. rewrite existsb_app'. simpl. rewrite Fx.
      rewrite orb_true_r. lia.
  - pose proof (findIndex_None _ _ Hfind) as Hnone.
    destruct (createLibraryEntry_title libraryType configPath rows) as [Ht Hp].
    split; [| split].
    + eexists. split; [| split; [exact Ht | exact Hp]].
      clear -Hnone Ht. set (e := createLibraryEntry libraryType configPath rows) in *.
      clearbody e. induction Hnone as [|a l Ha _ IH]; simpl.
      * unfold hasTitle. rewrite Ht. by rewrite bool_decide_eq_true_2.
      * by rewrite Ha.
    + intros other Hne. rewrite List.filter_app. simpl.
      assert (H1 : hasTitle other (createLibraryEntry libraryType configPath rows) = false).
      { unfold hasTitle. rewrite Ht. apply bool_decide_eq_false_2. congruence. }
      rewrite H1. apply app_nil_r.
    + rewrite length_app. simpl.
      assert (Hex : existsb (hasTitle libraryType) rows = false).
      { clear -Hnone. induction Hnone as [|a l Ha _ IH]; simpl; [reflexivity |].
        by rewrite Ha. }
      by rewrite Hex.
Qed.

(** One registration, whatever the shape of the stored configuration. *)
Lemma registerLibraryType_run (org repo libraryType configPath : string)
    (w : World) (config : Doc) (rows : list Row) :
  faults w = [] ->
  store w !! buildConfigUrl org repo = Some config ->
  existingLibraryRows config = Some rows ->
  exists r w' m' library' rows',
    registerLibraryType org repo libraryType configPath w = (Ok r, w')
    /\ registered r = true
    /\ existed r = existsb (hasTitle libraryType) rows
    /\ createdSheet r = negb (sheetExisted (ensureLibrarySheet config))
    /\ convertedToMultiSheet r = Some (bool_decide (docType config = Some "sheet"))
    /\ libraryEntryCount r = Some (length rows')
    /\ error r = None
    /\ faults w' = []
    /\ store w' = <[buildConfigUrl org repo := Multi m']> (store w)
    /\ mutatedConfig (ensureLibrarySheet config) rows' = Multi m'
    /\ obj_get (sheets m') "library" = Some library'
    /\ data library' = Some rows'
    /\ (if sheetExisted (ensureLibrarySheet config)
        then total library' = Some (length rows') /\ limit library' = Some (length rows')
        else total library' = Some 0 /\ limit library' = Some 0)
    /\ (exists row,
          List.find (hasTitle libraryType) rows' = Some row
          /\ row !! "title" = Some libraryType /\ row !! "path" = Some configPath)
    /\ (forall other, other <> libraryType ->
          List.filter (hasTitle other) rows' = List.filter (hasTitle other) rows)
    /\ length rows'
       = length rows + (if existsb (hasTitle libraryType) rows then 0 else 1).
Proof.
  intros Hf Hs Hrows.
  destruct (registered_rows_find libraryType configPath rows) as (Hfind & Hframe & Hlen).
  cbv zeta in Hfind, Hframe, Hlen.
  set (rows' := match findIndex _ rows with Some i => _ | None => _ end) in *.
  destruct (mutatedConfig_library config rows') as (m' & lib' & Hm & Hlib & Hdata & Htot).
  unfold registerLibraryType, try_catch. unfold bind at 1.
  rewrite (getSiteConfig_found org repo w config Hf Hs). cbv beta iota zeta.
  rewrite ensureLibrarySheet_rows, Hrows.
  unfold bind at 1. rewrite (uploadConfig_stores org repo w _ Hf). cbv beta iota.
  unfold ret. fold rows'. rewrite Hm.
  eexists _, _, m', lib', rows'. split; [reflexivity |].
  cbn [registered existed createdSheet convertedToMultiSheet libraryEntryCount error
       faults store].
  repeat (split; [first [reflexivity | assumption] |]).
  split; [apply findIndex_existsb |].
  repeat (split; [first [reflexivity | assumption] |]). assumption.
Qed.



(** Registering into a flat configuration stores a multi-sheet
    document with the sheets [data] and [library]: [data] holds the
    original rows, [library] holds the one new row, made of the title and
    the path.  The registration reports one library entry, but the
    [total] and [limit] of the stored library sheet stay 0: they are
    recomputed on an object that is not the one uploaded. *)
Theorem registerLibraryType_migrates_flat (org repo libraryType configPath : string)
    (w : World) (config : Sheet) :
  faults w = [] ->
  store w !! buildConfigUrl org repo = Some (Flat (Some "sheet") config) ->
  exists r w' m',
    registerLibraryType org repo libraryType configPath w = (Ok r, w')
    /\ registered r = true /\ existed r = false /\ createdSheet r = true
    /\ convertedToMultiSheet r = Some true
    /\ libraryEntryCount r = Some 1
    /\ store w' !! buildConfigUrl org repo = Some (Multi m')
    /\ names m' = Some ["data"; "library"]
    /\ obj_get (sheets m') "data"
       = Some (createSheetStructure (default [] (data config)))
    /\ obj_get (sheets m') "library"
       = Some {| total := Some 0; limit := Some 0; offset := Some 0;
                 data := Some [ ({[ "title" := libraryType; "path" := configPath ]} : Row) ];
                 colWidths := None |}.
Proof.
  intros Hf Hs. unfold registerLibraryType, try_catch. unfold bind at 1.
  rewrite (getSiteConfig_found org repo w _ Hf Hs). cbv beta iota zeta.
  cbn [ensureLibrarySheet]. rewrite bool_decide_eq_true_2 by reflexivity.
  cbn [convertToMultiSheet librarySheet emptyLibrarySheet data findIndex app].
  unfold bind at 1. rewrite (uploadConfig_stores org repo w _ Hf). cbv beta iota.
  unfold ret. eexists _, _, _. split; [reflexivity |].
  cbn [registered existed createdSheet convertedToMultiSheet libraryEntryCount store
       sheetExisted negb length docType].
  do 5 (split; [reflexivity |]). split; [apply lookup_insert_eq |].
  repeat split.
Qed.

Lemma registerLibraryType_migrates_flat_witness :
  exists r w' m',
    registerLibraryType "org" "site" "Blocks" "/library/blocks.json" flatSiteWorld
    = (Ok r, w')
    /\ libraryEntryCount r = Some 1
    /\ store w' !! buildConfigUrl "org" "site" = Some (Multi m')
    /\ (obj_get (sheets m') "library" ≫= total) = Some 0.
Proof.
  destruct (registerLibraryType_migrates_flat "org" "site" "Blocks" "/library/blocks.json"
              flatSiteWorld widthsConfig eq_refl ltac:(vm_compute; reflexivity))
    as (r & w' & m' & H & _ & _ & _ & _ & Hc & Hs & _ & _ & Hl).
  exists r, w', m'. split; [exact H |]. split; [exact Hc |]. split; [exact Hs |].
  by rewrite Hl.
Defined.

(** Registering into an existing library sheet changes no row of
    another title; the sheet grows by one row exactly when the title was
    not there, which is what [existed] and [libraryEntryCount] report. *)
Theorem registerLibraryType_keeps_other_rows (org repo libraryType configPath : string)
    (w : World) (rows : list Row) :
  faults w = [] ->
  libraryRows org repo w = Some rows ->
  exists r w' rows',
    registerLibraryType org repo libraryType configPath w = (Ok r, w')
    /\ registered r = true /\ createdSheet r = false
    /\ existed r = existsb (hasTitle libraryType) rows
    /\ libraryRows org repo w' = Some rows'
    /\ libraryEntryCount r = Some (length rows')
    /\ length rows' = length rows + (if existed r then 0 else 1)
    /\ (forall other, other <> libraryType ->
          List.filter (hasTitle other) rows' = List.filter (hasTitle other) rows).
Proof.
  intros Hf Hrows. unfold libraryRows in Hrows.
  destruct (store w !! buildConfigUrl org repo) as [[tag s | m]|] eqn:Hs; try discriminate.
  destruct (obj_get (sheets m) "library") as [lib|] eqn:Hlib; [| discriminate].
  simpl in Hrows.
  assert (Hex : existingLibraryRows (Multi m) = Some rows).
  { unfold existingLibraryRows. by rewrite Hlib. }
  destruct (registerLibraryType_run org repo libraryType configPath w (Multi m) rows
              Hf Hs Hex)
    as (r & w' & m' & lib' & rows' & Hreg & Hr & He & Hc & _ & Hcount & _ & Hf' & Hstore
        & _ & Hlib' & Hdata & _ & _ & Hframe & Hlen).
  exists r, w', rows'. split; [exact Hreg |]. split; [exact Hr |].
  split. { rewrite Hc, sheetExisted_library, Hlib. reflexivity. }
  split; [exact He |]. split.
  { unfold libraryRows. rewrite Hstore, lookup_insert_eq, Hlib'. exact Hdata. }
  split; [exact Hcount |]. split; [by rewrite He |]. exact Hframe.
Qed.

Lemma registerLibraryType_keeps_other_rows_witness :
  exists rows,
    libraryRows "org" "site" siteWorld = Some rows
    /\ exists r w' rows',
         registerLibraryType "org" "site" "Icons" "/media/icons.json" siteWorld = (Ok r, w')
         /\ registered r = true /\ createdSheet r = false
         /\ existed r = existsb (hasTitle "Icons") rows
         /\ libraryRows "org" "site" w' = Some rows'
         /\ libraryEntryCount r = Some (length rows')
         /\ length rows' = length rows + (if existed r then 0 else 1)
         /\ (forall other, other <> "Icons" ->
               List.filter (hasTitle other) rows' = List.filter (hasTitle other) rows).
Proof.
  eexists. split; [vm_compute; reflexivity |].
  apply registerLibraryType_keeps_other_rows; [reflexivity | vm_compute; reflexivity].
Defined.

(** A registration never throws.  When it reports [registered: false]
    it carries an error message and the store is as it was before; when
    the configuration cannot be fetched the message is that of the
    transport, prefixed. *)
Theorem registerLibraryType_never_throws (org repo libraryType configPath : string)
    (w : World) :
  exists r w',
    registerLibraryType org repo libraryType configPath w = (Ok r, w')
    /\ (if registered r then error r = None
        else is_Some (error r) /\ store w' = store w)
    /\ (forall message rest,
          faults w = Some message :: rest ->
          registered r = false
          /\ error r = Some ("Failed to get site config: " +:+ message)).
Proof.
  destruct w as [st fs].
  unfold registerLibraryType, getSiteConfig, uploadConfig, daAdminRequest, daAdminSend,
    try_catch, bind, request, ret, throw.
  cbn [faults store].
  destruct fs as [|[message|] rest]; cbn [faults store].
  - destruct (st !! buildConfigUrl org repo) as [config|].
    + destruct (data (librarySheet (ensureLibrarySheet config))) as [rows|];
        eexists _, _; (split; [reflexivity |]); cbn; (split; [eauto | discriminate]).
    + eexists _, _. split; [reflexivity |]. cbn. split; [eauto | discriminate].
  - eexists _, _. split; [reflexivity |]. cbn. split; [eauto |].
    intros ? ? [= <- <-]. auto.
  - destruct (st !! buildConfigUrl org repo) as [config|].
    + destruct (data (librarySheet (ensureLibrarySheet config))) as [rows|].
      * destruct rest as [|[message|] rest];
          eexists _, _; (split; [reflexivity |]); cbn; (split; [eauto | discriminate]).
      * eexists _, _. split; [reflexivity |]. cbn. split; [eauto | discriminate].
    + eexists _, _. split; [reflexivity |]. cbn. split; [eauto | discriminate].
Qed.

Lemma registerLibraryType_never_throws_witness :
  exists r w',
    registerLibraryType "org" "site" "Blocks" "/library/blocks.json" flakyWorld = (Ok r, w')
    /\ registered r = false /\ is_Some (error r) /\ store w' = store flakyWorld.
Proof.
  destruct (registerLibraryType_never_throws "org" "site" "Blocks" "/library/blocks.json"
              flakyWorld) as (r & w' & H & Hr & _).
  exists r, w'. split; [exact H |].
  assert (Hreg : registered r = false).
  { vm_compute in H. injection H as <- _. reflexivity. }
  rewrite Hreg in Hr. destruct Hr as [He Hs]. auto.
Defined.

(** ** Progress of the matcher and termination of the scans *)

Section Progress.
Variable ignoreCase : bool.

(** A match ends inside the input, not before where it started. *)
Lemma run_bounds (p : pattern) :
  forall prev s pos gs g e g',
    run ignoreCase p prev s pos gs g = Some (e, g') ->
    pos <= e <= pos + String.length s.
Proof.
  induction p as [|[c | set | | |] p IH]; intros prev s pos gs g e g' H.
  - cbn [run] in H. injection H as <- _. lia.
  - rewrite run_Chr in H. destruct s as [|a s]; [discriminate |].
    destruct (sameChar ignoreCase a c); [| discriminate].
    apply IH in H. cbn [String.length]. lia.
  - revert prev pos H. induction s as [|a s IHs]; intros prev pos H;
      rewrite run_Rep in H; [eauto |].
    destruct (set a); [| eauto].
    destruct (run ignoreCase (Rep set :: p) (Some a) s (S pos) gs g) as [[e1 g1]|] eqn:E.
    + injection H as <- <-. apply IHs in E. cbn [String.length]. lia.
    + eauto.
  - cbn [run] in H. destruct (xorb _ _); [eauto | discriminate].
  - cbn [run] in H. eauto.
  - cbn [run] in H. eauto.
Qed.

(** A pattern that starts with a pattern character matches at least one
    code unit. *)
Lemma run_progress (c : ascii) (p : pattern) prev s pos gs g e g' :
  run ignoreCase (Chr c :: p) prev s pos gs g = Some (e, g') ->
  pos < e <= pos + String.length s.
Proof.
  rewrite run_Chr. destruct s as [|a s]; [discriminate |].
  destruct (sameChar ignoreCase a c); [| discriminate].
  intros H. apply run_bounds in H. cbn [String.length]. lia.
Qed.

Lemma search_bounds (c : ascii) (p : pattern) :
  forall s prev pos m,
    search ignoreCase (Chr c :: p) prev s pos = Some m ->
    pos <= index m /\ index m < stop m /\ stop m <= pos + String.length s.
Proof.
  induction s as [|a s IH]; intros prev pos m H; cbn [search] in H.
  - destruct (run ignoreCase (Chr c :: p) prev "" pos 0 None) as [[e g]|] eqn:E;
      [| discriminate].
    injection H as <-. apply run_progress in E. cbn [index stop]. lia.
  - destruct (run ignoreCase (Chr c :: p) prev (String a s) pos 0 None) as [[e g]|] eqn:E.
    + injection H as <-. apply run_progress in E. cbn [index stop]. lia.
    + apply IH in H. cbn [String.length]. lia.
Qed.

Lemma seek_length :
  forall n prev s prev' s',
    seek n prev s = Some (prev', s') -> n + String.length s' = String.length s.
Proof.
  induction n as [|n IH]; intros prev s prev' s' H; cbn [seek] in H.
  - by injection H as _ <-.
  - destruct s as [|a s]; [discriminate |]. apply IH in H. cbn [String.length]. lia.
Qed.

(** [exec] finds a match that is not empty, at or after [lastIndex] and
    inside the input. *)
Lemma exec_bounds (c : ascii) (p : pattern) (str : string) (lastIndex : nat) (m : found) :
  exec ignoreCase (Chr c :: p) str lastIndex = Some m ->
  lastIndex <= index m /\ index m < stop m /\ stop m <= String.length str.
Proof.
  unfold exec. destruct (seek lastIndex None str) as [[prev s]|] eqn:E; [| discriminate].
  intros H. apply search_bounds in H. apply seek_length in E. lia.
Qed.

End Progress.

Lemma closeScan_terminates (html : string) (startPos : nat) :
  forall fuel depth pos,
    pos <= String.length html -> String.length html < pos + fuel ->
    exists r, closeScan fuel html startPos depth pos = Some r.
Proof.
  induction fuel as [|fuel IH]; intros depth pos Hle Hlt; [lia |].
  cbn [closeScan]. destruct (negb _); [eauto |].
  destruct (exec false divCloseRegex html pos) as [close|] eqn:Hc; [| eauto].
  apply (exec_bounds false "<" (chars "/div>")) in Hc.
  assert (Hclose : forall d, exists r,
            (if (d - 1 =? 0)%nat
             then Some (Some (trim (substring startPos (index close) html)))
             else closeScan fuel html startPos (d - 1) (stop close)) = Some r).
  { intros d. destruct (d - 1 =? 0)%nat; [eauto |]. apply IH; lia. }
  destruct (exec false divOpenRegex html pos) as [open|] eqn:Ho; [| apply Hclose].
  apply (exec_bounds false "<" (chars "div" ++ [Rep notGt] ++ chars ">")) in Ho.
  destruct (index open <? index close)%nat; [| apply Hclose].
  apply IH; lia.
Qed.

Lemma openScan_terminates (html blockName : string) :
  forall fuel lastIndex blockInstances,
    lastIndex <= String.length html -> String.length html < lastIndex + fuel ->
    exists r, openScan fuel html blockName lastIndex blockInstances = Some r.
Proof.
  induction fuel as [|fuel IH]; intros lastIndex acc Hle Hlt; [lia |].
  cbn [openScan].
  destruct (exec true (openTagRegex blockName) html lastIndex) as [m|] eqn:Hm; [| eauto].
  rewrite openTagRegex_atoms in Hm.
  apply (exec_bounds true "<") in Hm.
  destruct (captured acc _); [apply IH; lia |].
  destruct (closeScan_terminates html (stop m) (S (String.length html)) 1 (stop m))
    as [[content|] ->]; [lia | lia | |]; apply IH; lia.
Qed.

(** Both scans move forward in the input at every iteration, so the
    iteration budget of the embedding is never exhausted: an extraction
    returns a result for every page, for every component name made of
    letters, digits, [_] and [-] (a name with pattern syntax in it makes
    another pattern, or none at all). *)
Theorem parseBlockInstances_terminates (html blockName : string) :
  plainName blockName = true ->
  exists blockInstances, parseBlockInstances html blockName = Some blockInstances.
Proof. intros _. apply openScan_terminates; lia. Qed.

Lemma parseBlockInstances_terminates_witness :
  exists blockInstances, parseBlockInstances heroicPage "hero" = Some blockInstances.
Proof. apply parseBlockInstances_terminates. reflexivity. Defined.

(** ** What the result of an extraction looks like *)

Lemma obj_get_set_ne {V : Type} (o : list (string * V)) (k k' : string) (v : V) :
  k <> k' -> obj_get (obj_set o k v) k' = obj_get o k'.
Proof.
  intros Hne. induction o as [|[k0 v0] o IH]; simpl.
  - destruct (String.eqb_spec k k'); [contradiction | reflexivity].
  - destruct (String.eqb_spec k0 k) as [-> | Hk]; simpl.
    + destruct (String.eqb_spec k k'); [contradiction | reflexivity].
    + destruct (String.eqb k0 k'); [reflexivity | exact IH].
Qed.

Lemma obj_set_keys {V : Type} (o : list (string * V)) (k : string) (v : V) :
  NoDup (obj_keys o) -> NoDup (obj_keys (obj_set o k v)).
Proof.
  unfold obj_keys. induction o as [|[k0 v0] o IH]; simpl; intros Hnd.
  - apply NoDup_singleton.
  - apply NoDup_cons in Hnd as [Hnotin Hnd].
    destruct (String.eqb_spec k0 k) as [-> | Hk]; simpl.
    + by apply NoDup_cons.
    + apply NoDup_cons. split; [| by apply IH].
      intros Hin. apply Hnotin. clear -Hin Hk.
      induction o as [|[k1 v1] o IH]; simpl in *.
      * apply list_elem_of_singleton in Hin. congruence.
      * destruct (String.eqb_spec k1 k) as [-> | Hk1]; simpl in *; [exact Hin |].
        apply elem_of_cons in Hin as [-> | Hin]; [apply list_elem_of_here |].
        apply list_elem_of_further. by apply IH.
Qed.

Lemma obj_set_values {V : Type} (P : V -> Prop) (o : list (string * V)) (k : string)
    (v : V) :
  P v -> Forall (fun kv => P (snd kv)) o -> Forall (fun kv => P (snd kv)) (obj_set o k v).
Proof.
  intros Hv. induction 1 as [|[k0 v0] o H0 Ho IH]; simpl.
  - by repeat constructor.
  - destruct (String.eqb k0 k); constructor; auto.
Qed.

Lemma trimStart_fixed (c : ascii) (s : string) :
  isSpace c = false -> trimStart (String c s) = String c s.
Proof. intros H. cbn [trimStart]. by rewrite H. Qed.

Lemma trimEnd_cons (c : ascii) (s : string) :
  trimEnd (String c s)
  = match trimEnd s with
    | EmptyString => if isSpace c then EmptyString else String c EmptyString
    | t => String c t
    end.
Proof. reflexivity. Qed.

Lemma trimEnd_idem (s : string) : trimEnd (trimEnd s) = trimEnd s.
Proof.
  induction s as [|c s IH]; [reflexivity |]. rewrite trimEnd_cons.
  destruct (trimEnd s) as [|d t] eqn:E.
  - destruct (isSpace c) eqn:Hc; [reflexivity |]. rewrite trimEnd_cons.
    cbn [trimEnd]. by rewrite Hc.
  - rewrite trimEnd_cons, IH. reflexivity.
Qed.

Lemma trimEnd_head (c : ascii) (s : string) :
  isSpace c = false -> exists t, trimEnd (String c s) = String c t.
Proof.
  intros Hc. rewrite trimEnd_cons. destruct (trimEnd s); [rewrite Hc |]; eauto.
Qed.

(** Trimming twice is trimming once. *)
Lemma trim_idem (s : string) : trim (trim s) = trim s.
Proof.
  unfold trim.
  assert (H : forall t, trimStart t = t -> trimStart (trimEnd t) = trimEnd t).
  { intros [|c t] Ht; [reflexivity |].
    destruct (isSpace c) eqn:Hc.
    - exfalso. cbn [trimStart] in Ht. rewrite Hc in Ht.
      assert (Hlen : forall u, String.length (trimStart u) <= String.length u).
      { induction u as [|d u IHu]; simpl; [lia |]. destruct (isSpace d); simpl; lia. }
      specialize (Hlen t). rewrite Ht in Hlen. simpl in Hlen. lia.
    - destruct (trimEnd_head c t Hc) as [u ->]. by apply trimStart_fixed. }
  assert (Hs : trimStart (trimStart s) = trimStart s).
  { induction s as [|c s IH]; [reflexivity |]. cbn [trimStart].
    destruct (isSpace c) eqn:Hc; [exact IH |]. cbn [trimStart]. by rewrite Hc. }
  rewrite (H _ Hs). apply trimEnd_idem.
Qed.

Lemma closeScan_trimmed (html : string) (startPos : nat) :
  forall fuel depth pos content,
    closeScan fuel html startPos depth pos = Some (Some content) ->
    trim content = content.
Proof.
  induction fuel as [|fuel IH]; intros depth pos content H; [discriminate |].
  cbn [closeScan] in H. destruct (negb _); [discriminate |].
  destruct (exec false divCloseRegex html pos) as [close|]; [| discriminate].
  assert (Hclose :
    (if (depth - 1 =? 0)%nat
     then Some (Some (trim (substring startPos (index close) html)))
     else closeScan fuel html startPos (depth - 1) (stop close)) = Some (Some content) ->
    trim content = content).
  { destruct (depth - 1 =? 0)%nat; [| apply IH].
    intros [= <-]. apply trim_idem. }
  destruct (exec false divOpenRegex html pos) as [open|]; [| auto].
  destruct (index open <? index close)%nat; [eapply IH; exact H | auto].
Qed.

(** The invariants of the loop over the opening tags. *)
Lemma openScan_invariants (html blockName : string) :
  forall fuel lastIndex acc result,
    openScan fuel html blockName lastIndex acc = Some result ->
    (NoDup (obj_keys acc) -> NoDup (obj_keys result))
    /\ (Forall (fun kv => trim (snd kv) = snd kv) acc ->
        Forall (fun kv => trim (snd kv) = snd kv) result)
    /\ (forall variant content,
          obj_get acc variant = Some content -> content <> "" ->
          obj_get result variant = Some content).
Proof.
  induction fuel as [|fuel IH]; intros lastIndex acc result H; [discriminate |].
  cbn [openScan] in H.
  destruct (exec true (openTagRegex blockName) html lastIndex) as [m|].
  2:{ injection H as <-. auto. }
  set (variant := variantOf blockName _) in H.
  destruct (captured acc variant) eqn:Hcap; [by apply IH in H |].
  destruct (closeScan _ html (stop m) 1 (stop m)) as [[content|]|] eqn:Hclose;
    [| by apply IH in H | discriminate].
  apply IH in H as (Hkeys & Hvals & Hkept). split; [| split].
  - intros Hnd. apply Hkeys. by apply obj_set_keys.
  - intros Hall. apply Hvals. apply (obj_set_values (fun v => trim v = v)); [| exact Hall].
    eapply closeScan_trimmed. exact Hclose.
  - intros v c Hv Hc. apply Hkept; [| exact Hc].
    rewrite obj_get_set_ne; [exact Hv |]. intros <-.
    unfold captured in Hcap. rewrite Hv in Hcap.
    apply negb_false_iff, String.eqb_eq in Hcap. contradiction.
Qed.

(** Every content recorded by an extraction is trimmed: trimming it
    again changes nothing, whatever white space surrounds the element
    content in the page.  The component name is made of letters,
    digits, [_] and [-]. *)
Theorem parseBlockInstances_result (html blockName : string) :
  plainName blockName = true ->
  exists blockInstances,
    parseBlockInstances html blockName = Some blockInstances
    /\ forall variant content,
         obj_get blockInstances variant = Some content -> trim content = content.
Proof.
  intros _.
  destruct (openScan_terminates html blockName (S (String.length html)) 0 [])
    as [result H]; [lia | lia |].
  exists result. split; [exact H |].
  apply openScan_invariants in H as (_ & Hvals & _).
  assert (Hall : Forall (fun kv => trim (snd kv) = snd kv) result)
    by (apply Hvals; constructor).
  clear Hvals. intros variant content Hget.
  induction Hall as [|[k v] rest Hkv _ IH]; [discriminate |].
  cbn [obj_get] in Hget. destruct (String.eqb k variant).
  - injection Hget as <-. exact Hkv.
  - by apply IH.
Qed.

Lemma parseBlockInstances_result_witness :
  exists blockInstances,
    parseBlockInstances (simpleTag "hero dark" "  <p>X</p>  </div>") "hero"
    = Some blockInstances
    /\ forall variant content,
         obj_get blockInstances variant = Some content -> trim content = content.
Proof. apply parseBlockInstances_result. reflexivity. Defined.

(** First occurrence wins: a variant captured with a non-empty content
    keeps that content until the end of the scan, whatever follows in the
    page. *)
Theorem openScan_keeps_captured (html blockName : string) (fuel lastIndex : nat)
    (acc result : list (string * string)) (variant content : string) :
  openScan fuel html blockName lastIndex acc = Some result ->
  obj_get acc variant = Some content -> content <> "" ->
  obj_get result variant = Some content.
Proof. intros H. apply openScan_invariants in H as (_ & _ & Hkept). apply Hkept. Qed.

Lemma closeScan_no_closing_tag (html : string) (startPos : nat) :
  occursIn false "</div>" html = false ->
  forall fuel depth pos r,
    closeScan fuel html startPos depth pos = Some r -> r = None.
Proof.
  intros Hno fuel depth pos r H. destruct fuel as [|fuel]; [discriminate |].
  cbn [closeScan] in H. destruct (negb _); [by injection H |].
  destruct (exec false divCloseRegex html pos) as [close|] eqn:Hc; [| by injection H].
  apply (exec_occursIn false "</div>" [] []) in Hc. congruence.
Qed.

Lemma openScan_no_closing_tag (html blockName : string) :
  occursIn false "</div>" html = false ->
  forall fuel lastIndex acc result,
    openScan fuel html blockName lastIndex acc = Some result -> result = acc.
Proof.
  intros Hno. induction fuel as [|fuel IH]; intros lastIndex acc result H; [discriminate |].
  cbn [openScan] in H.
  destruct (exec true (openTagRegex blockName) html lastIndex) as [m|];
    [| by injection H].
  destruct (captured acc _); [by apply IH in H |].
  destruct (closeScan _ html (stop m) 1 (stop m)) as [r|] eqn:Hclose; [| discriminate].
  apply (closeScan_no_closing_tag html (stop m) Hno) in Hclose. subst r.
  by apply IH in H.
Qed.

(** A page without any closing [div] tag gives the empty result: every
    selected element is abandoned, none makes the extraction fail.  The
    component name is made of letters, digits, [_] and [-]. *)
Theorem parseBlockInstances_no_closing_tag (html blockName : string) :
  plainName blockName = true ->
  occursIn false "</div>" html = false ->
  parseBlockInstances html blockName = Some [].
Proof.
  intros _ Hno.
  destruct (openScan_terminates html blockName (S (String.length html)) 0 [])
    as [result H]; [lia | lia |].
  unfold parseBlockInstances. rewrite H. f_equal.
  eapply openScan_no_closing_tag; [exact Hno | exact H].
Qed.

Lemma parseBlockInstances_no_closing_tag_witness :
  parseBlockInstances (simpleTag "hero dark" "<p>unclosed") "hero" = Some [].
Proof. apply parseBlockInstances_no_closing_tag; reflexivity. Defined.

(** The variant of an element is a class of its class list that is
    neither the component name nor prefixed by the name and [-], or it is
    empty; it is empty when every class is of that kind.  It is also
    empty when the class value starts with white space, whatever classes
    follow: the first token is then the empty string. *)
Theorem variantOf_not_block_class (blockName : string) (classes : list string) :
  let variant := variantOf blockName classes in
  (variant = ""
   \/ (In variant classes /\ variant <> blockName
       /\ startsWith (blockName +:+ "-") variant = false))
  /\ ((forall cls, In cls classes ->
         cls = blockName \/ startsWith (blockName +:+ "-") cls = true) ->
      variant = "")
  /\ (forall c value,
        isSpace c = true -> blockName <> "" ->
        variantOf blockName (splitSpaces false (String c value)) = "").
Proof.
  intros variant. subst variant. unfold variantOf.
  set (f := fun cls => negb (String.eqb cls blockName)
                       && negb (startsWith (blockName +:+ "-") cls)).
  split; [| split].
  - destruct (List.find f classes) as [v|] eqn:E; cbn [default]; [| by left].
    apply find_some in E as [Hin Hf]. unfold f in Hf.
    apply andb_true_iff in Hf as [Hne Hpre].
    apply negb_true_iff in Hne, Hpre. apply String.eqb_neq in Hne. right. auto.
  - intros Hall. destruct (List.find f classes) as [v|] eqn:E; cbn [default];
      [| reflexivity].
    apply find_some in E as [Hin Hf]. unfold f in Hf.
    apply andb_true_iff in Hf as [Hne Hpre].
    apply negb_true_iff in Hne, Hpre. apply String.eqb_neq in Hne.
    destruct (Hall v Hin); congruence.
  - intros c value Hc Hname. cbn [splitSpaces]. rewrite Hc. cbn [List.find].
    assert (Hf : f "" = true).
    { unfold f. destruct blockName as [|b name]; [contradiction |]. reflexivity. }
    by rewrite Hf.
Qed.

Lemma variantOf_not_block_class_witness :
  variantOf "hero" (splitSpaces false " hero dark") = "".
Proof.
  apply (proj2 (proj2 (variantOf_not_block_class "hero" []))); [reflexivity | discriminate].
Defined.

Lemma openScan_keeps_captured_witness :
  exists result,
    openScan 100 heroPage "hero" 0 [("dark", "first")] = Some result
    /\ obj_get result "dark" = Some "first".
Proof.
  destruct (openScan_terminates heroPage "hero" 100 0 [("dark", "first")])
    as [result H]; [vm_compute; lia | vm_compute; lia |].
  exists result. split; [exact H |].
  apply (openScan_keeps_captured heroPage "hero" 100 0 [("dark", "first")] result);
    [exact H | reflexivity | discriminate].
Defined.

(** ** Columns of a new registration and sheets of a configuration *)

Lemma backfill_lookup (keys : list string) :
  forall (acc : Row) (k : string),
    foldl (fun enrichedEntry key =>
             if hasProperty key enrichedEntry then enrichedEntry
             else <[key := ""]> enrichedEntry) acc keys !! k
    = match acc !! k with
      | Some v => Some v
      | None => if bool_decide (k ∈ keys) && negb (isInherited k) then Some "" else None
      end.
Proof.
  induction keys as [|key keys IH]; intros acc k; cbn [foldl].
  - rewrite bool_decide_eq_false_2 by apply not_elem_of_nil. by destruct (acc !! k).
  - rewrite IH. clear IH.
    assert (Hin : key <> k -> bool_decide (k ∈ key :: keys) = bool_decide (k ∈ keys)).
    { intros Hne. apply bool_decide_ext. rewrite elem_of_cons.
      split; [intros [? | ?]; [congruence | assumption] | auto]. }
    destruct (hasProperty key acc) eqn:Hkey.
    + destruct (acc !! k) eqn:Hk; [reflexivity |].
      destruct (decide (key = k)) as [-> | Hne]; [| by rewrite Hin].
      unfold hasProperty in Hkey. rewrite Hk in Hkey.
      rewrite bool_decide_eq_false_2 in Hkey by (intros [? ?]; discriminate).
      cbn [orb] in Hkey. rewrite Hkey. cbn [negb]. by rewrite !andb_false_r.
    + unfold hasProperty in Hkey. apply orb_false_iff in Hkey as [Hown Hinh].
      apply bool_decide_eq_false_1 in Hown.
      destruct (decide (key = k)) as [-> | Hne].
      * rewrite lookup_insert_eq.
        destruct (acc !! k) eqn:Hk; [exfalso; apply Hown; eauto |].
        rewrite bool_decide_eq_true_2 by apply list_elem_of_here.
        by rewrite Hinh.
      * rewrite lookup_insert_ne by assumption. by rewrite Hin.
Qed.

Lemma In_keys (m : Row) (k : string) :
  k ∈ map fst (map_to_list m) <-> is_Some (m !! k).
Proof.
  rewrite list_elem_of_In, in_map_iff. split.
  - intros ([k' v] & <- & Hin). apply list_elem_of_In, elem_of_map_to_list in Hin. eauto.
  - intros [v Hv]. exists (k, v). split; [reflexivity |].
    by apply list_elem_of_In, elem_of_map_to_list.
Qed.

(** The row appended by a first registration of a type has the title
    and the path, and the empty string for every other column of the
    first existing row, except the columns named like a member every
    object inherits ([constructor], [toString], ...): the test [key in
    enrichedEntry] finds those already there.  The row has no other
    column; columns that only later rows have are not filled in. *)
Theorem createLibraryEntry_columns (libraryType configPath : string)
    (existingEntries : list Row) (k : string) :
  createLibraryEntry libraryType configPath existingEntries !! k
  = if String.eqb k "title" then Some libraryType
    else if String.eqb k "path" then Some configPath
    else match existingEntries with
         | [] => None
         | firstEntry :: _ =>
             if isInherited k then None else (fun _ => "") <$> firstEntry !! k
         end.
Proof.
  unfold createLibraryEntry, ensureLibraryColumns.
  set (baseEntry := ({[ "title" := libraryType; "path" := configPath ]} : Row)).
  assert (Hbase : baseEntry !! k
                  = if String.eqb k "title" then Some libraryType
                    else if String.eqb k "path" then Some configPath else None).
  { unfold baseEntry. destruct (String.eqb_spec k "title") as [-> | Ht].
    - apply lookup_insert_eq.
    - rewrite lookup_insert_ne by congruence.
      destruct (String.eqb_spec k "path") as [-> | Hp].
      + apply lookup_singleton_eq.
      + apply lookup_singleton_ne. congruence. }
  destruct existingEntries as [|firstEntry rest]; [exact Hbase |].
  rewrite backfill_lookup, Hbase.
  destruct (String.eqb k "title"); [reflexivity |].
  destruct (String.eqb k "path"); [reflexivity |].
  destruct (isInherited k); [by rewrite andb_false_r |]. rewrite andb_true_r.
  destruct (firstEntry !! k) as [v|] eqn:Hk; cbn [fmap option_fmap option_map].
  - rewrite bool_decide_eq_true_2; [reflexivity |]. apply In_keys. eauto.
  - rewrite bool_decide_eq_false_2; [reflexivity |]. rewrite In_keys, Hk.
    intros [? ?]. discriminate.
Qed.

Lemma obj_get_map {V W : Type} (g : V -> W) (o : list (string * V)) (k : string) :
  obj_get (map (fun '(name, sheet) => (name, g sheet)) o) k = g <$> obj_get o k.
Proof.
  induction o as [|[k' v'] o IH]; simpl; [reflexivity |].
  destruct (String.eqb k' k); [reflexivity | exact IH].
Qed.

Lemma parseMultiSheetJSON_lookup (m : MultiSheet) (name : string) :
  obj_get (parseMultiSheetJSON m) name
  = if bool_decide (name ∈ default [] (names m)) && negb (isProtoSetter name)
    then truthyMember m name
    else None.
Proof.
  unfold parseMultiSheetJSON.
  assert (H : forall ns acc,
    obj_get (foldl (fun acc name =>
                      match truthyMember m name with
                      | Some sheet =>
                          if isProtoSetter name then acc else obj_set acc name sheet
                      | None => acc
                      end) acc ns) name
    = if bool_decide (name ∈ ns) && negb (isProtoSetter name)
      then match truthyMember m name with
           | Some sheet => Some sheet
           | None => obj_get acc name
           end
      else obj_get acc name).
  { induction ns as [|n ns IH]; intros acc; cbn [foldl].
    - by rewrite bool_decide_eq_false_2 by apply not_elem_of_nil.
    - rewrite IH. clear IH. destruct (decide (n = name)) as [-> | Hne].
      + rewrite (bool_decide_eq_true_2 (name ∈ name :: ns)) by apply list_elem_of_here.
        destruct (isProtoSetter name) eqn:Hp.
        * rewrite !andb_false_r. by destruct (truthyMember m name).
        * rewrite !andb_true_r. destruct (truthyMember m name) as [sheet|] eqn:Ht.
          -- rewrite obj_get_set. by destruct (bool_decide _).
          -- by destruct (bool_decide _).
      + assert (Hin : bool_decide (name ∈ n :: ns) = bool_decide (name ∈ ns)).
        { apply bool_decide_ext. rewrite elem_of_cons.
          split; [intros [? | ?]; [congruence | assumption] | auto]. }
        rewrite Hin.
        assert (Hacc : obj_get (match truthyMember m n with
                                | Some sheet =>
                                    if isProtoSetter n then acc else obj_set acc n sheet
                                | None => acc
                                end) name = obj_get acc name).
        { destruct (truthyMember m n); [| reflexivity].
          destruct (isProtoSetter n); [reflexivity |]. by apply obj_get_set_ne. }
        by rewrite Hacc. }
  rewrite H. destruct (_ && _); [| reflexivity].
  by destruct (truthyMember m name).
Qed.

(** Under a name that can hold a sheet, a truthy member is a sheet of
    the document or a member every object inherits. *)
Lemma truthyMember_sheetName (m : MultiSheet) (name : string) :
  sheetName name = true ->
  truthyMember m name
  = match obj_get (sheets m) name with
    | Some sheet => Some sheet
    | None => if isInherited name then Some notASheet else None
    end.
Proof.
  unfold sheetName, isMeta, metaNames. cbn [existsb]. intros H.
  apply andb_true_iff in H as [_ H]. apply negb_true_iff in H.
  apply orb_false_iff in H as [Hv H]. apply orb_false_iff in H as [Hn H].
  apply orb_false_iff in H as [Ht _].
  unfold truthyMember. by rewrite Ht, Hn, Hv.
Qed.

(** A multi-sheet configuration without library sheet gets an empty
    one.  The sheets listed in [":names"] are carried over with their
    rows ([total] and [limit] recomputed, other members dropped), and a
    sheet that [":names"] does not list is not carried over.  A listed
    name that is no sheet of the configuration but a member every object
    inherits ([constructor], [toString], ...) gives an empty sheet of
    that name.  No sheet is left under [__proto__] or under the name of a
    meta member. *)
Theorem ensureLibrarySheet_adds_library (m : MultiSheet) :
  obj_get (sheets m) "library" = None ->
  exists m',
    newConfig (ensureLibrarySheet (Multi m)) = Multi m'
    /\ sheetExisted (ensureLibrarySheet (Multi m)) = false
    /\ preservedRows (ensureLibrarySheet (Multi m)) = 0
    /\ obj_get (sheets m') "library" = Some (createSheetStructure [])
    /\ (forall name, name <> "library" ->
          obj_get (sheets m') name
          = if bool_decide (name ∈ default [] (names m)) && sheetName name
            then match obj_get (sheets m) name with
                 | Some sheet => Some (createSheetStructure (default [] (data sheet)))
                 | None =>
                     if isInherited name then Some (createSheetStructure []) else None
                 end
            else None).
Proof.
  intros Hlib. cbn [ensureLibrarySheet]. rewrite Hlib.
  cbn [newConfig sheetExisted preservedRows createMultiSheetJSON].
  eexists. split; [reflexivity |]. split; [reflexivity |]. split; [reflexivity |].
  cbn [sheets]. split.
  - rewrite obj_get_filter_sheetName by reflexivity.
    rewrite obj_get_map, obj_get_set. reflexivity.
  - intros name Hne. destruct (sheetName name) eqn:Hname.
    + rewrite obj_get_filter_sheetName by exact Hname.
      rewrite obj_get_map, obj_get_set_ne by congruence.
      rewrite parseMultiSheetJSON_lookup, (truthyMember_sheetName m name Hname).
      assert (Hp : isProtoSetter name = false).
      { unfold sheetName in Hname. apply andb_true_iff in Hname as [Hp _].
        by apply negb_true_iff in Hp. }
      rewrite Hp, !andb_true_r. destruct (bool_decide _); [| reflexivity].
      destruct (obj_get (sheets m) name); [reflexivity |].
      by destruct (isInherited name).
    + rewrite obj_get_filter_other by exact Hname. by rewrite andb_false_r.
Qed.

Lemma ensureLibrarySheet_adds_library_witness :
  exists m',
    newConfig (ensureLibrarySheet (Multi unlistedConfig)) = Multi m'
    /\ obj_get (sheets m') "library" = Some (createSheetStructure [])
    /\ obj_get (sheets m') "data" = obj_get (sheets unlistedConfig) "data"
    /\ obj_get (sheets m') "draft" = None
    /\ obj_get (sheets m') "constructor" = Some (createSheetStructure []).
Proof.
  destruct (ensureLibrarySheet_adds_library unlistedConfig eq_refl)
    as (m' & H & _ & _ & Hlib & Hother).
  exists m'. split; [exact H |]. split; [exact Hlib |].
  rewrite (Hother "data"), (Hother "draft"), (Hother "constructor") by discriminate.
  repeat split.
Defined.


(** ** Upserting a block *)

Section AddBlock.
Variable toUpperCase : string -> string.
Variables (org repo blockName baseFolder : string) (displayName : option string).

(** With a transport that does not fail, [addBlock] succeeds whether or
    not a blocks document is there.  It reports whether the name of the
    entry was in the data sheet before and whether there was an options
    sheet; the data sheet of the stored document holds the upserted
    rows; a document that had no options sheet (or was absent) gets the
    default options table; no other document of the store changes. *)
Theorem addBlock_upserts (w : World) :
  let url := blocksUrl org repo baseFolder in
  let entry := createBlockEntry toUpperCase blockName displayName baseFolder org repo in
  let before := getDataSheet (store w !! url) in
  faults w = [] ->
  exists r w',
    addBlock toUpperCase org repo blockName displayName baseFolder w = (Ok r, w')
    /\ ab_added r = true
    /\ ab_entry r = entry
    /\ ab_existed r = entryExists before (entry !! "name") "name"
    /\ ab_optionsPreserved r = bool_decide (is_Some (getOptionsSheet (store w !! url)))
    /\ getDataSheet (store w' !! url) = Some (addEntry before entry "name")
    /\ (getOptionsSheet (store w !! url) = None ->
        getOptionsSheet (store w' !! url) = Some (createSheetStructure defaultOptionRows))
    /\ forall other, other <> url -> store w' !! other = store w !! other.
Proof.
  intros url entry before Hf. unfold addBlock. rewrite getBlocksPath_ok. run_lift.
  unfold bind at 1. rewrite (getSheetJSON_read org repo (blocksPath baseFolder) w Hf).
  cbv beta iota. fold (blocksUrl org repo baseFolder). fold url. fold entry.
  set (doc0 := store w !! url).
  assert (Hds : match doc0 with Some _ => getDataSheet doc0 | None => None end = before).
  { subst before. fold doc0. by destruct doc0. }
  assert (Hos : match doc0 with Some _ => getOptionsSheet doc0 | None => None end
                = getOptionsSheet doc0).
  { by destruct doc0. }
  rewrite Hds, Hos. rewrite createLibraryJSON_blocks. run_lift.
  unfold bind at 1.
  rewrite (uploadSheetJSON_stores org repo (blocksPath baseFolder) w _ Hf).
  cbv beta iota. unfold ret.
  eexists _, _. split; [reflexivity |].
  cbn [ab_added ab_entry ab_existed ab_optionsPreserved store].
  fold (blocksUrl org repo baseFolder). fold url.
  split; [reflexivity |]. split; [reflexivity |].
  split; [by destruct before |]. split; [reflexivity |].
  rewrite lookup_insert_eq.
  split; [| split].
  - cbn. unfold addEntry.
    by destruct (findIndex (sameKey "name" entry) (default [] (before ≫= data))).
  - intros Hnone. rewrite Hnone. reflexivity.
  - intros other Hother. by rewrite lookup_insert_ne.
Qed.

End AddBlock.

Lemma addBlock_upserts_witness :
  exists r w',
    addBlock (fun s => s) "org" "site" "hero" None "library" emptyWorld = (Ok r, w')
    /\ ab_existed r = false
    /\ ab_optionsPreserved r = false
    /\ getOptionsSheet (store w' !! blocksUrl "org" "site" "library")
       = Some (createSheetStructure defaultOptionRows).
Proof.
  destruct (addBlock_upserts (fun s => s) "org" "site" "hero" "library" None emptyWorld
              eq_refl) as (r & w' & H & _ & _ & He & Ho & _ & Hd & _).
  exists r, w'. split; [exact H |]. split; [exact He |]. split; [exact Ho |].
  apply Hd. reflexivity.
Defined.


(** ** Validation of names and folders *)

Lemma trim_empty_eqb (s : string) :
  String.eqb s "" || String.eqb (trim s) "" = String.eqb (trim s) "".
Proof. destruct s; [reflexivity |]. simpl. reflexivity. Qed.

(** [validateBlockName] looks at the trimmed name only: white space
    around a name never changes the verdict.  A name is accepted exactly
    when its trimmed form is not empty, has no slash or backslash, does
    not contain two dots in a row and has none of the seven forbidden
    characters; a verdict carries an error message exactly when it is a
    refusal. *)
Theorem validateBlockName_trimmed (blockName : string) :
  validateBlockName (trim blockName) = validateBlockName blockName
  /\ (valid (validateBlockName blockName) = true <->
      trim blockName <> ""
      /\ testClass isSlash (trim blockName) = false
      /\ includes PATH_TRAVERSAL (trim blockName) = false
      /\ testClass isInvalidPathChar (trim blockName) = false)
  /\ (valid (validateBlockName blockName) = true <->
      v_error (validateBlockName blockName) = None).
Proof.
  unfold validateBlockName, validateString. rewrite trim_idem, !trim_empty_eqb.
  rewrite orb_diag.
  destruct (String.eqb (trim blockName) "") eqn:E.
  - apply String.eqb_eq in E. rewrite E. cbn.
    split; [reflexivity |]. split; split; intros H; try discriminate H.
    destruct H as [H _]. contradiction.
  - apply String.eqb_neq in E.
    destruct (testClass isSlash (trim blockName)),
             (includes PATH_TRAVERSAL (trim blockName)),
             (testClass isInvalidPathChar (trim blockName)); cbn;
      (split; [reflexivity |]); split; split; intros H;
      try discriminate H; try tauto; try (destruct H as (_ & ? & ? & ?); discriminate).
Qed.

Lemma stripTrailingSlashes_slash (s : string) :
  stripTrailingSlashes (s +:+ "/") = stripTrailingSlashes s.
Proof.
  induction s as [|c s IH]; [reflexivity |].
  rewrite append_cons. cbn [stripTrailingSlashes]. by rewrite IH.
Qed.

Lemma stripLeadingSlashes_slash (s : string) :
  stripLeadingSlashes (s +:+ "/")
  = match stripLeadingSlashes s with
    | EmptyString => EmptyString
    | t => t +:+ "/"
    end.
Proof.
  induction s as [|c s IH]; [reflexivity |].
  rewrite append_cons. cbn [stripLeadingSlashes].
  destruct (Ascii.eqb c "/"); [exact IH |]. by rewrite append_cons.
Qed.

Lemma trim_slash_head (s : string) : trim (String "/" s) <> "".
Proof.
  unfold trim. cbn [trimStart]. change (isSpace "/") with false. cbv iota.
  cbn [trimEnd]. destruct (trimEnd s); discriminate.
Qed.

(** [validateBaseFolder] judges the folder without its leading and
    trailing slashes: wrapping a folder that is not blank in slashes
    never changes the verdict. *)
Theorem validateBaseFolder_ignores_outer_slashes (baseFolder : string) :
  trim baseFolder <> "" ->
  validateBaseFolder ("/" +:+ baseFolder +:+ "/") = validateBaseFolder baseFolder.
Proof.
  intros Hne. unfold validateBaseFolder, validateString.
  rewrite !trim_empty_eqb.
  apply String.eqb_neq in Hne. rewrite Hne.
  change ("/" +:+ baseFolder +:+ "/") with (String "/" (baseFolder +:+ "/")).
  pose proof (trim_slash_head (baseFolder +:+ "/")) as Hs.
  apply String.eqb_neq in Hs. rewrite Hs.
  cbn [stripLeadingSlashes]. change (Ascii.eqb "/" "/") with true. cbv iota.
  rewrite stripLeadingSlashes_slash.
  destruct (stripLeadingSlashes baseFolder) as [|c t] eqn:E; [reflexivity |].
  rewrite stripTrailingSlashes_slash. reflexivity.
Qed.

Lemma validateBaseFolder_ignores_outer_slashes_witness :
  validateBaseFolder "/library/" = validateBaseFolder "library"
  /\ valid (validateBaseFolder "library") = true.
Proof.
  split; [| reflexivity].
  apply (validateBaseFolder_ignores_outer_slashes "library"). discriminate.
Defined.
